(** * check_efy: a shallow embedding of [check_efy.py] and its properties

    The script polls a web page for free seats in one session and texts a
    list of recipients when seats are available.  Everything outside the
    script (the page fetch and HTML parse, the SMS provider, the random
    number generator, the file system, the clock) is an input of the model;
    everything the script itself computes is a Rocq function.

    Conventions.
    - A Python [str] is a [string]; the character with code [n] stands for
      the code point [n], so the model is exact for text whose code points
      are below 256.
    - A computation is a function to [M A]: the events it performed so far
      and either the exception it raised or its value.
    - A finite float is the rational it denotes. *)

From Stdlib Require Import List String Ascii Bool Arith ZArith QArith Qround Lia.
From Stdlib Require Import DecimalString.
Import ListNotations.

Local Close Scope Q_scope.
Local Open Scope Z_scope.
Local Open Scope string_scope.
Local Open Scope list_scope.

(** ** Python values and exceptions *)

(** The exception classes that occur in the script, its libraries and its
    handlers.  [OtherError cls] is an exception of any further class; none
    of the script's handlers names such a class. *)
Inductive exn : Type :=
| KeyboardInterrupt
| SystemExit (code : Z)
| ValueError (msg : string)
| TypeError (msg : string)
| IndexError (msg : string)
| UnboundLocalError (msg : string)
| ConnectionResetError
| TwilioRestException (msg : string)
| OtherError (cls : string).

(** [except KeyboardInterrupt], [except ValueError] and
    [except ConnectionResetError] as class tests. *)
Definition is_KeyboardInterrupt (e : exn) : bool :=
  match e with KeyboardInterrupt => true | _ => false end.

Definition is_ValueError (e : exn) : bool :=
  match e with ValueError _ => true | _ => false end.

Definition is_ConnectionResetError (e : exn) : bool :=
  match e with ConnectionResetError => true | _ => false end.

(** [str(e)] of an exception: its message. *)
Definition str_exn (e : exn) : string :=
  match e with
  | ValueError m | TypeError m | IndexError m | UnboundLocalError m
  | TwilioRestException m => m
  | SystemExit c => NilZero.string_of_int (Z.to_int c)
  | KeyboardInterrupt | ConnectionResetError | OtherError _ => ""
  end.

Inductive level : Type := INFO | WARNING | ERROR.

(** The body handed to the SMS provider: a string, or the pair that
    [a, b] builds. *)
Inductive msg_body : Type :=
| Str (s : string)
| Tuple2 (a b : string).

(** What the script does to the outside world, in order. *)
Inductive event : Type :=
| Print (line : string)
| Log (lvl : level) (fmt : string) (args : list string)
| BasicConfig (fmt datefmt : string) (lvl : level)
| SetLevel (logger : string) (lvl : level)
| AddHandler (path : string) (lvl : level)
| Urlopen (url : string)
| Create (body : msg_body) (from_ : option (list string)) (to : string)
| Sleep (secs : Z).

(** ** The effect monad: a trace of events and a value or an exception *)

Definition M (A : Type) : Type := (list event * (exn + A))%type.

Definition ret {A} (a : A) : M A := ([], inr a).
Definition raise {A} (e : exn) : M A := ([], inl e).
Definition emit (ev : event) : M unit := ([ev], inr tt).

Definition bind {A B} (m : M A) (k : A -> M B) : M B :=
  match m with
  | (t, inl e) => (t, inl e)
  | (t, inr a) => let (t', r) := k a in (t ++ t', r)
  end.

Notation "x <- m ;; k" := (bind m (fun x => k))
  (at level 61, m at next level, right associativity).
Notation "m ;;; k" := (bind m (fun _ => k))
  (at level 61, right associativity).

(** [try: m except <cls>: h], where [catches] is the class test. *)
Definition try_except {A} (m : M A) (catches : exn -> bool) (h : exn -> M A)
  : M A :=
  match m with
  | (t, inl e) => if catches e then let (t', r) := h e in (t ++ t', r)
                  else (t, inl e)
  | (t, inr a) => (t, inr a)
  end.

(** [for x in xs: body x]: the first exception ends the loop. *)
Fixpoint for_each {A} (xs : list A) (body : A -> M unit) : M unit :=
  match xs with
  | [] => ret tt
  | x :: xs' => body x ;;; for_each xs' body
  end.

(** An outcome of a library call lifted into the monad. *)
Definition lift {A} (r : exn + A) : M A := ([], r).

Definition trace {A} (m : M A) : list event := fst m.
Definition result {A} (m : M A) : exn + A := snd m.

(** ** Strings *)

Definition str_of_Z (z : Z) : string := NilZero.string_of_int (Z.to_int z).

(** [c.isspace()] for a code point below 256. *)
Definition isspace (c : ascii) : bool :=
  let n := nat_of_ascii c in
  (((9 <=? n) && (n <=? 13)) || ((28 <=? n) && (n <=? 32))
   || (n =? 133) || (n =? 160))%nat.

Fixpoint lstrip (s : string) : string :=
  match s with
  | String c s' => if isspace c then lstrip s' else s
  | EmptyString => EmptyString
  end.

(** [rstrip] drops the trailing run of white space: a character is kept
    when it is not a space or something is kept after it. *)
Fixpoint rstrip (s : string) : string :=
  match s with
  | String c s' =>
      match rstrip s' with
      | EmptyString => if isspace c then EmptyString else String c EmptyString
      | r => String c r
      end
  | EmptyString => EmptyString
  end.

(** [s.strip()] *)
Definition strip (s : string) : string := rstrip (lstrip s).

(** [fmt % args] for the conversions the script's constants use, [%s] and
    [%%]; [fmt % x] with [x] not a tuple is [fmt % (x,)]. *)
Fixpoint py_format (fmt : string) (args : list string) : exn + string :=
  match fmt with
  | EmptyString =>
      match args with
      | [] => inr EmptyString
      | _ :: _ =>
          inl (TypeError "not all arguments converted during string formatting")
      end
  | String c rest =>
      if Ascii.eqb c "%" then
        match rest with
        | EmptyString => inl (ValueError "incomplete format")
        | String d rest' =>
            if Ascii.eqb d "s" then
              match args with
              | [] => inl (TypeError "not enough arguments for format string")
              | a :: args' =>
                  match py_format rest' args' with
                  | inr out => inr (a ++ out)%string
                  | inl e => inl e
                  end
              end
            else if Ascii.eqb d "%" then
              match py_format rest' args with
              | inr out => inr (String "%" out)
              | inl e => inl e
              end
            else inl (ValueError "unsupported format character")
        end
      else
        match py_format rest args with
        | inr out => inr (String c out)
        | inl e => inl e
        end
  end.

(** [xs[i]] for a non-negative [i]. *)
Definition index {A} (xs : list A) (i : nat) : M A :=
  match nth_error xs i with
  | Some x => ret x
  | None => raise (IndexError "list index out of range")
  end.

(** [range(n)] *)
Definition range (n : Z) : list nat := seq 0 (Z.to_nat n).

(** ** Regular expressions: the fragment of [re] that the script uses *)

Inductive re : Type :=
| Bol                          (* ^ *)
| Eol                          (* $ *)
| Chr (c : ascii)              (* one literal character, as in \+ *)
| Range (lo hi : ascii)        (* [lo-hi] *)
| Digit                        (* \d *)
| Rep (r : re) (lo hi : nat)   (* r{lo,hi} *)
| Cat (r1 r2 : re).

Definition in_range (lo hi c : ascii) : bool :=
  ((nat_of_ascii lo <=? nat_of_ascii c)
   && (nat_of_ascii c <=? nat_of_ascii hi))%nat.

(** [\d] on a code point below 256: the ten ASCII digits. *)
Definition isdigit (c : ascii) : bool := in_range "0" "9" c.

Definition newline : ascii := ascii_of_nat 10.

(** [$] without [re.MULTILINE]: at the end of the string, or just before a
    newline that is the last character. *)
Definition at_eol (s : string) : bool :=
  match s with
  | EmptyString => true
  | String c EmptyString => Ascii.eqb c newline
  | String _ (String _ _) => false
  end.

Definition one_char (p : ascii -> bool) (s : string)
  (k : bool -> string -> bool) : bool :=
  match s with
  | String c s' => p c && k false s'
  | EmptyString => false
  end.

(** A backtracking matcher in continuation style.  [bos] tells whether the
    position is the beginning of the string, [s] is the text from the
    position on, [k] matches the rest of the pattern. *)
Fixpoint re_at (r : re) (bos : bool) (s : string)
  (k : bool -> string -> bool) {struct r} : bool :=
  match r with
  | Bol => bos && k bos s
  | Eol => at_eol s && k bos s
  | Chr c => one_char (Ascii.eqb c) s k
  | Range lo hi => one_char (in_range lo hi) s k
  | Digit => one_char isdigit s k
  | Cat r1 r2 => re_at r1 bos s (fun bos' s' => re_at r2 bos' s' k)
  | Rep r1 lo hi =>
      (fix rep (lo hi : nat) (bos : bool) (s : string) {struct hi} : bool :=
         match hi with
         | O => (lo =? 0)%nat && k bos s
         | S hi' =>
             re_at r1 bos s (fun bos' s' => rep (Nat.pred lo) hi' bos' s')
             || ((lo =? 0)%nat && k bos s)
         end) lo hi bos s
  end.

(** [bool(re.match(r, s))]: [r] matches some prefix of [s]. *)
Definition re_match (r : re) (s : string) : bool :=
  re_at r true s (fun _ _ => true).

(** ** The script: constants *)

Definition ERROR_LOG_FILENAME : string := "check-efy.log".
Definition SESSION_ID : string := "UT Provo 04B".

Definition MSG_UNAVAILABLE : string := "%s. No spots left for %s on %s".
Definition MSG_AVAILABLE : string := "%s spots left for %s on %s".
Definition MSG_TEXT_MESSAGE : string :=
  ("%s spots availible for session %s at efy." ++
   "Click here https://efy.byu.edu/efy_session/10091862.")%string.
Definition MSG_RECIPIENT_ERR : string :=
  ("Invalid recipient number %s" ++
   ". Recipient should be formatted with a '+' " ++
   "and country code e.g., +16175551212 (E.164 format).")%string.

(** ** [setup_logger] *)

(** The calls into [os] and [os.path] that [setup_logger] makes. *)
Record os_env : Type := {
  abspath : string -> string;
  isfile : string -> bool;
  dirname : string -> string;
  access_W : string -> bool
}.

(** A local variable of a function body is [None] until it is assigned;
    reading it then raises [UnboundLocalError]. *)
Definition read_local {A} (name : string) (v : option A) : M A :=
  match v with
  | Some a => ret a
  | None =>
      raise (UnboundLocalError
               ("local variable '" ++ name ++ "' referenced before assignment")%string)
  end.

Definition setup_logger (os : os_env) (log_file : option string)
  (verbose : bool) : M unit :=
  let fmt := ("%(asctime)s %(levelname)s (%(threadName)s) " ++
              "[%(name)s] %(message)s")%string in
  let datefmt := "%Y-%m-%d %H:%M:%S" in
  emit (BasicConfig fmt datefmt INFO) ;;;
  emit (SetLevel "requests" WARNING) ;;;
  emit (SetLevel "urllib3" WARNING) ;;;
  emit (SetLevel "twilio.http_client" WARNING) ;;;
  let err_log_path :=
    match log_file with
    | None => abspath os ERROR_LOG_FILENAME
    | Some f => abspath os f
    end in
  let err_path_exists := isfile os err_log_path in
  let err_dir := dirname os err_log_path in
  let err_handler :=
    if (err_path_exists && access_W os err_log_path)
       || (negb err_path_exists && access_W os err_dir)
    then Some (err_log_path, if verbose then INFO else WARNING)
    else None in
  h <- read_local "err_handler" err_handler ;;
  emit (AddHandler (fst h) (snd h)) ;;;
  emit (SetLevel "" INFO).

(** ** [isSiteAvailable] *)

(** The first component of the checker's result: the integer [0] or the
    text of the seat cell. *)
Inductive seats : Type :=
| Int (z : Z)
| Text (s : string).

(** [str(spots)] *)
Definition str_seats (v : seats) : string :=
  match v with
  | Int z => str_of_Z z
  | Text s => s
  end.

(** The rows of the schedule table's body: for each [tr], the [.text] of
    its [td] cells.  [None] as a result of the checker is Python's [None],
    what a function returns when its body ends without a [return]. *)
Definition table : Type := list (list string).
Definition availability : Type := option (seats * bool).

(** The [for row in rows] loop, with its [return]s. *)
Fixpoint scan_rows (session_id : string) (rows : table) : M availability :=
  match rows with
  | [] => ret None
  | row :: rows' =>
      let cols := map strip row in
      c_session_id <- index cols 0 ;;
      c_session_date <- index cols 1 ;;
      c_seats <- index cols 3 ;;
      if String.eqb c_session_id session_id then
        if String.eqb c_seats "Full" then
          emit (Log INFO MSG_UNAVAILABLE
                  [c_seats; session_id; c_session_date]) ;;;
          ret (Some (Int 0, false))
        else
          emit (Log INFO MSG_AVAILABLE
                  [c_seats; session_id; c_session_date]) ;;;
          ret (Some (Text c_seats, true))
      else scan_rows session_id rows'
  end.

(** [fetch url] is the outcome of [urlopen], the parse and the three
    [find]s: an exception or the rows. *)
Definition isSiteAvailable (fetch : string -> exn + table)
  (session_id : string) : M availability :=
  let url := "https://efy.byu.edu/available-sessions" in
  emit (Log INFO "Checking availibility for session %s" [session_id]) ;;;
  try_except
    (emit (Urlopen url) ;;;
     rows <- lift (fetch url) ;;
     scan_rows session_id rows)
    is_ConnectionResetError
    (fun _ =>
       emit (Log ERROR "Connection closed ... try again." []) ;;;
       ret (Some (Int 0, false))).

(** ** [get_delay_mins] and [delay_with_update_by_min] *)

(** [int(x)] of a finite float: truncation toward zero. *)
Definition int_of_float (x : Q) : Z := Z.quot (Qnum x) (Z.pos (Qden x)).

(** [normal mu sigma] is the draw [np.random.normal(mu, sigma)]. *)
Definition get_delay_mins (normal : Q -> Q -> Q) (mu sigma : Q) : Z :=
  let x := normal mu sigma in
  let x := if Qlt_le_dec x 0 then 0%Q else x in
  int_of_float x.

(** [sleep i] tells whether the [i]-th [time.sleep(60)] of this delay is
    cut short by an exception. *)
Definition delay_with_update_by_min (sleep : nat -> option exn) (mins : Z)
  : M unit :=
  emit (Log INFO ("Waiting " ++ str_of_Z mins ++ " mins")%string []) ;;;
  for_each (range mins) (fun i =>
    emit (Sleep 60) ;;;
    match sleep i with
    | Some e => raise e
    | None => ret tt
    end).

(** ** [sendMessage] *)

(** [create body from_ to] is the outcome of [client.messages.create]: an
    exception or the [sid] of the message. *)
Definition twilio : Type :=
  msg_body -> option (list string) -> string -> exn + string.

Definition sendMessage (create : twilio) (msg : msg_body)
  (sender : option (list string)) (recipient : string) : M unit :=
  emit (Create msg sender recipient) ;;;
  sid <- lift (create msg sender recipient) ;;
  emit (Log INFO ("Sent message " ++ sid)%string []).

(** ** [validate_e164] *)

(** [r"^\+[1-9]\d{1,14}$"] *)
Definition E164 : re :=
  Cat Bol (Cat (Chr "+") (Cat (Range "1" "9") (Cat (Rep Digit 1 14) Eol))).

Definition validate_e164 (recipients : list string) : M unit :=
  for_each recipients (fun recipient =>
    let found := re_match E164 recipient in
    if negb found then
      msg <- lift (py_format MSG_RECIPIENT_ERR [recipient]) ;;
      raise (ValueError msg)
    else ret tt).

(** ** [main] *)

(** The parsed command line.  [--sender], [--account-id] and
    [--auth-token] are declared with [nargs='+'] and without a default:
    each is a list, or [None] when the option is absent.  The script hands
    [args.sender] to the provider as it is. *)
Record arguments : Type := {
  recipients : list string;
  sender : option (list string);
  account_id : option (list string);
  auth_token : option (list string);
  verbose : bool;
  log_file : option string
}.

(** What the outside world does during one pass of the polling loop. *)
Record cycle : Type := {
  fetch : string -> exn + table;
  create : twilio;
  normal : Q -> Q -> Q;
  sleep : nat -> option exn
}.

(** The world of one run: the file system, the outcome of constructing the
    Twilio client, and the passes of the loop that are observed. *)
Record world : Type := {
  os : os_env;
  new_client : option (list string) -> option (list string) -> option exn;
  cycles : list cycle
}.

Definition dquote : string := String (ascii_of_nat 34) EmptyString.

(** [recipients + sender] *)
Definition list_add (xs : list string) (ys : option (list string))
  : M (list string) :=
  match ys with
  | Some ys => ret (xs ++ ys)
  | None =>
      raise (TypeError
               ("can only concatenate list (not " ++ dquote ++ "NoneType"
                ++ dquote ++ ") to list")%string)
  end.

(** [(spots, available) = v] *)
Definition unpack2 (v : availability) : M (seats * bool) :=
  match v with
  | Some p => ret p
  | None => raise (TypeError "cannot unpack non-iterable NoneType object")
  end.

(** The body of the inner [try] of the loop. *)
Definition iteration (recipients : list string)
  (sender : option (list string)) (c : cycle) : M unit :=
  r <- isSiteAvailable (fetch c) SESSION_ID ;;
  p <- unpack2 r ;;
  let spots := fst p in
  let available := snd p in
  (if available then
     for_each recipients (fun recipient =>
       (* [MSG_TEXT_MESSAGE % str(spots), SESSION_ID]: [%] binds tighter
          than the comma, so the format gets one argument and the result
          is paired with [SESSION_ID]. *)
       text <- lift (py_format MSG_TEXT_MESSAGE [str_seats spots]) ;;
       let message := Tuple2 text SESSION_ID in
       sendMessage (create c) message sender recipient)
   else ret tt) ;;;
  let delay_mins := get_delay_mins (normal c) 10 15 in
  delay_with_update_by_min (sleep c) delay_mins.

(** [sys.exit(code)] *)
Definition sys_exit {A} (code : Z) : M A := raise (SystemExit code).

(** [while True: try: ... except KeyboardInterrupt as kerr: ...] over the
    observed passes.  The loop has no exit of its own: a value [tt] means
    that the observed passes are used up and the loop is still running. *)
Fixpoint polling (recipients : list string) (sender : option (list string))
  (cs : list cycle) : M unit :=
  match cs with
  | [] => ret tt
  | c :: cs' =>
      try_except (iteration recipients sender c)
        is_KeyboardInterrupt
        (fun kerr => emit (Log INFO (str_exn kerr) []) ;;; sys_exit 0) ;;;
      polling recipients sender cs'
  end.

(** The body of the outer [try]. *)
Definition main_try (args : arguments) (w : world) : M unit :=
  setup_logger (os w) (log_file args) (verbose args) ;;;
  let sender := sender args in
  let recipients := recipients args in
  all <- list_add recipients sender ;;
  validate_e164 all ;;;
  match new_client w (account_id args) (auth_token args) with
  | Some e => raise e
  | None => polling recipients sender (cycles w)
  end.

(** How the process ends: [sys.exit] with a code, a traceback of an
    exception that no handler took, or not within the observed passes. *)
Inductive status : Type :=
| Exited (code : Z)
| Traceback (e : exn)
| Polling.

(** [main]: the outer [try] with its [except ValueError as err], then
    [sys.exit(0)]. *)
Definition main (args : arguments) (w : world) : list event * status :=
  match main_try args w with
  | (t, inr tt) => (t, Polling)
  | (t, inl e) =>
      if is_ValueError e then
        (t ++ [Print ("Value error: " ++ str_exn e)%string], Exited 0)
      else
        (t, match e with SystemExit code => Exited code | _ => Traceback e end)
  end.

(** The [__main__] block. *)
Definition script (args : arguments) (w : world) : list event * status :=
  let (t, st) := main args w in
  (Print "Starting Check Efy Script." :: t, st).

(** [sent t]: the messages submitted to the provider in a trace. *)
Definition is_create (ev : event) : bool :=
  match ev with Create _ _ _ => true | _ => false end.

Definition sent (t : list event) : list event := filter is_create t.

(** ** Vocabulary of the statements *)

(** The text of cell [i] of a row as the checker reads it. *)
Definition cell (row : list string) (i : nat) : option string :=
  nth_error (map strip row) i.

(** The row's session cell is the queried identifier. *)
Definition matches_session (session_id : string) (row : list string) : bool :=
  match cell row 0 with
  | Some c => String.eqb c session_id
  | None => false
  end.

(** The position of the first row of the queried session. *)
Fixpoint first_match (session_id : string) (rows : table) : option nat :=
  match rows with
  | [] => None
  | row :: rows' =>
      if matches_session session_id row then Some O
      else option_map S (first_match session_id rows')
  end.

Definition efy_url : string := "https://efy.byu.edu/available-sessions".

Definition out_of_range : exn := IndexError "list index out of range".

(** The resolved path of the log file. *)
Definition log_path (os : os_env) (log_file : option string) : string :=
  abspath os (match log_file with
              | None => ERROR_LOG_FILENAME
              | Some f => f
              end).

(** The condition under which [setup_logger] assigns [err_handler]. *)
Definition log_writable (os : os_env) (log_file : option string) : bool :=
  let p := log_path os log_file in
  (isfile os p && access_W os p)
  || (negb (isfile os p) && access_W os (dirname os p)).

Definition unbound_err_handler : exn :=
  UnboundLocalError "local variable 'err_handler' referenced before assignment".

(** The events of [setup_logger] before it touches the file handler. *)
Definition logging_config : list event :=
  [BasicConfig
     "%(asctime)s %(levelname)s (%(threadName)s) [%(name)s] %(message)s"
     "%Y-%m-%d %H:%M:%S" INFO;
   SetLevel "requests" WARNING;
   SetLevel "urllib3" WARNING;
   SetLevel "twilio.http_client" WARNING].

(** The events of a [setup_logger] that succeeds. *)
Definition setup_events (os : os_env) (args : arguments) : list event :=
  logging_config
    ++ [AddHandler (log_path os (log_file args))
          (if verbose args then INFO else WARNING);
        SetLevel "" INFO].

(** The events of a check during which the connection is reset. *)
Definition reset_events (session_id : string) : list event :=
  [Log INFO "Checking availibility for session %s" [session_id];
   Urlopen efy_url;
   Log ERROR "Connection closed ... try again." []].

(** [MSG_RECIPIENT_ERR % recipient] *)
Definition recipient_error (recipient : string) : string :=
  ("Invalid recipient number " ++ recipient ++
   ". Recipient should be formatted with a '+' " ++
   "and country code e.g., +16175551212 (E.164 format).")%string.

(** The pattern rejects the number. *)
Definition rejected (recipient : string) : bool :=
  negb (re_match E164 recipient).

(** Every character is one of the ten digits. *)
Fixpoint all_digits (s : string) : bool :=
  match s with
  | String c s' => isdigit c && all_digits s'
  | EmptyString => true
  end.

(** A computation is quiet when it submits nothing to the provider. *)
Definition quiet {A} (m : M A) : Prop := sent (trace m) = [].

(** ** Vocabulary of the further properties *)

(** The seconds slept in a trace. *)
Fixpoint slept (t : list event) : Z :=
  match t with
  | [] => 0
  | Sleep secs :: t' => secs + slept t'
  | _ :: t' => slept t'
  end.

(** The page fetches of a trace. *)
Definition is_urlopen (ev : event) : bool :=
  match ev with Urlopen _ => true | _ => false end.

Definition fetched (t : list event) : list event := filter is_urlopen t.

(** What the row of the session yields: the result, and the line logged on
    the way, from its date and seat cells. *)
Definition row_result (c_seats : string) : seats * bool :=
  if String.eqb c_seats "Full" then (Int 0, false) else (Text c_seats, true).

Definition row_log (session_id c_date c_seats : string) : event :=
  Log INFO (if String.eqb c_seats "Full" then MSG_UNAVAILABLE
            else MSG_AVAILABLE)
    [c_seats; session_id; c_date].

(** [main] gets as far as the polling loop: the log file is writable, a
    sender [s] is given, every number passes validation and the client is
    constructed. *)
Definition starts (args : arguments) (w : world) (s : list string) : Prop :=
  log_writable (os w) (log_file args) = true
  /\ sender args = Some s
  /\ forallb (re_match E164) (recipients args ++ s) = true
  /\ new_client w (account_id args) (auth_token args) = None.

(** The pass ends without an exception. *)
Definition completes (args : arguments) (c : cycle) : Prop :=
  result (iteration (recipients args) (sender args) c) = inr tt.

(** The events of a run of passes. *)
Definition pass_events (args : arguments) (cs : list cycle) : list event :=
  List.concat
    (map (fun c => trace (iteration (recipients args) (sender args) c)) cs).

(** The string neither begins nor ends with white space. *)
Definition stripped (s : string) : Prop := strip s = s.

(** ** Sample inputs *)

Module Sample.

(** A file system in which the default log file can be created. *)
Definition os_writable : os_env :=
  {| abspath := fun p => ("/home/efy/" ++ p)%string;
     isfile := fun _ => false;
     dirname := fun _ => "/home/efy";
     access_W := fun _ => true |}.

(** A file system in which the log file exists and is read-only. *)
Definition os_readonly : os_env :=
  {| abspath := fun p => ("/home/efy/" ++ p)%string;
     isfile := fun _ => true;
     dirname := fun _ => "/home/efy";
     access_W := fun _ => false |}.

Definition args : arguments :=
  {| recipients := ["+16175551212"; "+16175551213"];
     sender := Some ["+15005550006"];
     account_id := Some ["AC0123"];
     auth_token := Some ["secret"];
     verbose := false;
     log_file := None |}.

(** The second recipient lacks the leading [+]. *)
Definition args_invalid : arguments :=
  {| recipients := ["+16175551212"; "6175551212"];
     sender := Some ["+15005550006"];
     account_id := Some ["AC0123"];
     auth_token := Some ["secret"];
     verbose := false;
     log_file := None |}.

(** A provider that accepts every message. *)
Definition provider : twilio := fun _ _ _ => inr "SM0001".


(** One pass in which the page shows [rows], the draw is 2.5 and no
    sleep is cut short. *)
Definition pass (rows : table) : cycle :=
  {| fetch := fun _ => inr rows;
     create := provider;
     normal := fun _ _ => (5 # 2)%Q;
     sleep := fun _ => None |}.

(** One pass in which the connection is reset. *)
Definition pass_reset : cycle :=
  {| fetch := fun _ => inl ConnectionResetError;
     create := provider;
     normal := fun _ _ => (5 # 2)%Q;
     sleep := fun _ => None |}.

(** One pass in which the user interrupts the second minute of sleep. *)
Definition pass_interrupted (rows : table) : cycle :=
  {| fetch := fun _ => inr rows;
     create := provider;
     normal := fun _ _ => (5 # 2)%Q;
     sleep := fun i => if (i =? 1)%nat then Some KeyboardInterrupt else None |}.

Definition run (cs : list cycle) : world :=
  {| os := os_writable; new_client := fun _ _ => None; cycles := cs |}.

(** The pages of the end-to-end scenarios. *)
Definition page_available : table :=
  [["UT Provo 04B"; "2024-06-01"; "-"; "3"]].
Definition page_full : table :=
  [["UT Provo 04B"; "2024-06-01"; "-"; "Full"]].
Definition page_other_session : table :=
  [["UT Provo 05A"; "2024-06-08"; "-"; "3"]].

(** The session listed twice, full first. *)
Definition page_twice : table :=
  [["UT Provo 04B"; "2024-06-01"; "-"; "Full"];
   ["UT Provo 04B"; "2024-06-08"; "-"; "3"]].

(** The seat cell padded with white space, as markup often leaves it. *)
Definition page_padded : table :=
  [["UT Provo 04B"; "2024-06-01"; "-"; " 3 "]].

(** A heading row of one cell before the session's row. *)
Definition page_heading : table :=
  [["June"];
   ["UT Provo 04B"; "2024-06-01"; "-"; "3"]].

(** A number of the right shape with a newline after it. *)
Definition with_newline : string :=
  ("+16175551212" ++ String newline EmptyString)%string.



(** One pass in which the fetch fails with [e]. *)
Definition pass_failing (e : exn) : cycle :=
  {| fetch := fun _ => inl e;
     create := provider;
     normal := fun _ _ => (5 # 2)%Q;
     sleep := fun _ => None |}.

(** A command line without [--sender]. *)
Definition args_no_sender : arguments :=
  {| recipients := ["+16175551212"];
     sender := None;
     account_id := Some ["AC0123"];
     auth_token := Some ["secret"];
     verbose := false;
     log_file := None |}.

(** The world of [run] with a log file that cannot be written. *)
Definition run_readonly (cs : list cycle) : world :=
  {| os := os_readonly; new_client := fun _ _ => None; cycles := cs |}.

End Sample.

(** ** Laws of the monad *)

Lemma bind_ret_l {A B} (a : A) (k : A -> M B) : bind (ret a) k = k a.
Proof. unfold bind, ret. destruct (k a). reflexivity. Qed.

Lemma bind_raise {A B} (e : exn) (k : A -> M B) : bind (raise e) k = raise e.
Proof. reflexivity. Qed.

Lemma bind_emit {B} (ev : event) (k : unit -> M B) :
  bind (emit ev) k = (ev :: trace (k tt), result (k tt)).
Proof. unfold bind, emit, trace, result. destruct (k tt). reflexivity. Qed.

Lemma bind_value {A B} (m : M A) (k : A -> M B) (a : A) :
  result m = inr a ->
  bind m k = (trace m ++ trace (k a), result (k a)).
Proof.
  destruct m as [t r]. unfold result, trace. simpl. intros ->.
  destruct (k a). reflexivity.
Qed.

Lemma bind_exn {A B} (m : M A) (k : A -> M B) (e : exn) :
  result m = inl e -> bind m k = (trace m, inl e).
Proof. destruct m as [t r]. unfold result, trace. simpl. now intros ->. Qed.

Lemma surjective_M {A} (m : M A) : m = (trace m, result m).
Proof. now destruct m. Qed.

(** ** The row scan *)

Lemma index_cell (row : list string) (i : nat) :
  index (map strip row) i =
  match cell row i with Some c => ret c | None => raise out_of_range end.
Proof. reflexivity. Qed.

Lemma cell_short (row : list string) (i : nat) :
  (List.length row <= i)%nat -> cell row i = None.
Proof.
  intros H. unfold cell. apply nth_error_None. now rewrite length_map.
Qed.

Lemma cell_some (row : list string) (i : nat) :
  (i < List.length row)%nat -> exists c, cell row i = Some c.
Proof.
  intros H. unfold cell.
  destruct (nth_error (map strip row) i) eqn:E; eauto.
  apply nth_error_None in E. rewrite length_map in E. lia.
Qed.

(** A row with fewer than four cells stops the scan with [IndexError]. *)
Lemma scan_rows_short (session_id : string) (row : list string) (rows : table) :
  (List.length row < 4)%nat ->
  scan_rows session_id (row :: rows) = raise out_of_range.
Proof.
  intros H. cbn [scan_rows]. rewrite !index_cell.
  rewrite (cell_short row 3) by lia.
  destruct (cell row 0); [|reflexivity]. rewrite bind_ret_l.
  destruct (cell row 1); [|reflexivity]. now rewrite bind_ret_l.
Qed.

(** A full row of another session is passed over. *)
Lemma scan_rows_skip (session_id : string) (row : list string) (rows : table) :
  (4 <= List.length row)%nat ->
  matches_session session_id row = false ->
  scan_rows session_id (row :: rows) = scan_rows session_id rows.
Proof.
  intros Hlen Hm. cbn [scan_rows]. rewrite !index_cell.
  unfold matches_session in Hm.
  destruct (cell_some row 0) as [c0 E0]; [lia|].
  destruct (cell_some row 1) as [c1 E1]; [lia|].
  destruct (cell_some row 3) as [c3 E3]; [lia|].
  rewrite E0, E1, E3 in *. rewrite !bind_ret_l. now rewrite Hm.
Qed.

(** A full row of the queried session decides the result. *)
Lemma scan_rows_hit (session_id : string) (row : list string) (rows : table)
  (c1 c3 : string) :
  matches_session session_id row = true ->
  cell row 1 = Some c1 ->
  cell row 3 = Some c3 ->
  result (scan_rows session_id (row :: rows)) =
  inr (Some (if String.eqb c3 "Full" then (Int 0, false)
             else (Text c3, true))).
Proof.
  intros Hm E1 E3. cbn [scan_rows]. rewrite !index_cell.
  unfold matches_session in Hm.
  destruct (cell row 0) as [c0|]; [|discriminate].
  rewrite E1, E3. rewrite !bind_ret_l. rewrite Hm.
  destruct (String.eqb c3 "Full"); reflexivity.
Qed.

(** The scan raises nothing but [IndexError]. *)
Lemma scan_rows_raises (session_id : string) (rows : table) (e : exn) :
  result (scan_rows session_id rows) = inl e -> e = out_of_range.
Proof.
  induction rows as [|row rows IH]; [discriminate|].
  destruct (Nat.lt_ge_cases (List.length row) 4) as [Hs|Hl].
  - rewrite scan_rows_short by exact Hs. cbn. congruence.
  - destruct (matches_session session_id row) eqn:Hm.
    + destruct (cell_some row 1) as [c1 E1]; [lia|].
      destruct (cell_some row 3) as [c3 E3]; [lia|].
      rewrite (scan_rows_hit _ _ _ _ _ Hm E1 E3). discriminate.
    + rewrite scan_rows_skip by assumption. exact IH.
Qed.

(** With the page fetched, the checker is the scan after two events. *)
Lemma isSiteAvailable_page (fetch : string -> exn + table)
  (session_id : string) (rows : table) :
  fetch efy_url = inr rows ->
  isSiteAvailable fetch session_id =
  (Log INFO "Checking availibility for session %s" [session_id]
   :: Urlopen efy_url :: trace (scan_rows session_id rows),
   result (scan_rows session_id rows)).
Proof.
  intros Hf. unfold isSiteAvailable. fold efy_url. rewrite Hf.
  pose proof (scan_rows_raises session_id rows) as Hr.
  unfold lift, emit, bind at 2 3.
  destruct (scan_rows session_id rows) as [t [e|v]]; cbn in *.
  - rewrite (Hr e eq_refl). reflexivity.
  - reflexivity.
Qed.

(** Up to the first row of the session, a short row ends the scan. *)
Lemma scan_rows_short_before_match (session_id : string) (rows : table) :
  forall (i j : nat) (row : list string),
    first_match session_id rows = Some j ->
    (i <= j)%nat ->
    nth_error rows i = Some row ->
    (List.length row < 4)%nat ->
    scan_rows session_id rows = raise out_of_range.
Proof.
  induction rows as [|r rows IH]; intros i j row Hj Hij Hi Hlen.
  - discriminate.
  - destruct i as [|i].
    + cbn in Hi. injection Hi as ->. now apply scan_rows_short.
    + cbn in Hi. cbn [first_match] in Hj.
      destruct (matches_session session_id r) eqn:Hm.
      * injection Hj as <-. lia.
      * destruct (first_match session_id rows) as [j'|] eqn:Hj'; [|discriminate].
        cbn in Hj. injection Hj as <-.
        destruct (Nat.lt_ge_cases (List.length r) 4) as [Hs|Hl].
        -- now apply scan_rows_short.
        -- rewrite scan_rows_skip by assumption.
           apply (IH i j' row); auto. lia.
Qed.

(** Rows of other sessions, each with four cells, are passed over. *)
Lemma scan_rows_prefix (session_id : string) (pre rows : table) :
  (forall r, In r pre ->
             (4 <= List.length r)%nat /\ matches_session session_id r = false) ->
  scan_rows session_id (pre ++ rows) = scan_rows session_id rows.
Proof.
  induction pre as [|r pre IH]; intros H; [reflexivity|].
  cbn [app]. destruct (H r (or_introl eq_refl)) as [Hl Hm].
  rewrite scan_rows_skip by assumption.
  apply IH. intros r' Hr'. apply H. now right.
Qed.

(** ** [setup_logger] *)

Lemma setup_logger_cases (os : os_env) (log_file : option string)
  (verbose : bool) :
  setup_logger os log_file verbose =
  if log_writable os log_file
  then (logging_config
          ++ [AddHandler (log_path os log_file)
                (if verbose then INFO else WARNING);
              SetLevel "" INFO], inr tt)
  else (logging_config, inl unbound_err_handler).
Proof.
  unfold setup_logger, log_writable, log_path.
  destruct log_file as [f|];
    match goal with
    | |- context [if ?c then Some _ else None] => destruct c
    end; reflexivity.
Qed.

(** C9: when the resolved log file is not writable (it exists without
    write access, or it does not exist and its directory is not writable),
    [setup_logger] raises [UnboundLocalError] for [err_handler], after the
    console configuration and before any handler is added. *)
Theorem setup_logger_unbound_err_handler (os : os_env)
  (log_file : option string) (verbose : bool) :
  (isfile os (log_path os log_file) = true
   /\ access_W os (log_path os log_file) = false)
  \/ (isfile os (log_path os log_file) = false
      /\ access_W os (dirname os (log_path os log_file)) = false) ->
  setup_logger os log_file verbose = (logging_config, inl unbound_err_handler).
Proof.
  intros H. rewrite setup_logger_cases.
  replace (log_writable os log_file) with false; [reflexivity|].
  unfold log_writable. cbv zeta.
  destruct H as [[-> ->]|[-> ->]]; reflexivity.
Qed.

Lemma setup_logger_unbound_err_handler_witness :
  setup_logger Sample.os_readonly (Some "efy.log") true
  = (logging_config, inl unbound_err_handler).
Proof.
  apply setup_logger_unbound_err_handler. left. split; reflexivity.
Defined.

(** ** [isSiteAvailable] *)

(** C10: a row with fewer than four cells that is the first row of the
    queried session, or comes before it, makes the checker raise
    [IndexError]: cells 0, 1 and 3 are read before the session is
    compared, and the checker's handler does not take this class. *)
Theorem short_row_raises_IndexError (fetch : string -> exn + table)
  (session_id : string) (rows : table) (i j : nat) (row : list string) :
  fetch efy_url = inr rows ->
  first_match session_id rows = Some j ->
  (i <= j)%nat ->
  nth_error rows i = Some row ->
  (List.length row < 4)%nat ->
  result (isSiteAvailable fetch session_id) = inl out_of_range.
Proof.
  intros Hf Hj Hij Hi Hlen.
  rewrite (isSiteAvailable_page _ _ _ Hf).
  now rewrite (scan_rows_short_before_match _ _ _ _ _ Hj Hij Hi Hlen).
Qed.

Lemma short_row_raises_IndexError_witness :
  result (isSiteAvailable (fun _ => inr Sample.page_heading) SESSION_ID)
  = inl out_of_range.
Proof.
  apply (short_row_raises_IndexError _ _ Sample.page_heading 0 1 ["June"]).
  - reflexivity.
  - reflexivity.
  - lia.
  - reflexivity.
  - simpl. lia.
Defined.

(** C3, as the code has it: the first row whose session cell, stripped of
    surrounding white space, is the queried identifier decides the result,
    provided every row before it has four cells or more: [(0, False)] when
    its stripped seat cell is ["Full"], and otherwise the stripped seat
    cell, as text, with [True]. *)
Theorem first_matching_row_decides (fetch : string -> exn + table)
  (session_id : string) (pre post : table) (row : list string)
  (c_seats : string) :
  fetch efy_url = inr (pre ++ row :: post) ->
  (forall r, In r pre ->
             (4 <= List.length r)%nat /\ matches_session session_id r = false) ->
  matches_session session_id row = true ->
  cell row 3 = Some c_seats ->
  result (isSiteAvailable fetch session_id) =
  inr (Some (if String.eqb c_seats "Full" then (Int 0, false)
             else (Text c_seats, true))).
Proof.
  intros Hf Hpre Hm E3.
  rewrite (isSiteAvailable_page _ _ _ Hf).
  rewrite scan_rows_prefix by exact Hpre.
  destruct (cell_some row 1) as [c1 E1].
  - destruct (Nat.lt_ge_cases 3 (List.length row)) as [H|H]; [lia|].
    rewrite cell_short in E3 by exact H. discriminate.
  - exact (scan_rows_hit _ _ _ _ _ Hm E1 E3).
Qed.

Lemma first_matching_row_decides_witness :
  result (isSiteAvailable (fun _ => inr (Sample.page_other_session
                                           ++ Sample.page_padded))
            SESSION_ID)
  = inr (Some (Text "3", true)).
Proof.
  apply (first_matching_row_decides _ SESSION_ID Sample.page_other_session []
           ["UT Provo 04B"; "2024-06-01"; "-"; " 3 "] "3").
  - reflexivity.
  - intros r [<-|[]]. split; [simpl; lia | reflexivity].
  - reflexivity.
  - reflexivity.
Defined.

(** C3 as the specification words it fails in three ways: a later row of
    the session does not decide the result when an earlier one does; the
    text returned is the stripped cell, not the cell as it stands; and a
    row of the session behind a short row is never reached. *)
Lemma matching_row_decides_counterexample :
  (In ["UT Provo 04B"; "2024-06-08"; "-"; "3"] Sample.page_twice
   /\ result (isSiteAvailable (fun _ => inr Sample.page_twice) "UT Provo 04B")
      = inr (Some (Int 0, false))
   /\ result (isSiteAvailable (fun _ => inr Sample.page_twice) "UT Provo 04B")
      <> inr (Some (Text "3", true)))
  /\ (In ["UT Provo 04B"; "2024-06-01"; "-"; " 3 "] Sample.page_padded
      /\ result (isSiteAvailable (fun _ => inr Sample.page_padded)
                   "UT Provo 04B")
         <> inr (Some (Text " 3 ", true)))
  /\ (In ["UT Provo 04B"; "2024-06-01"; "-"; "3"] Sample.page_heading
      /\ result (isSiteAvailable (fun _ => inr Sample.page_heading)
                   "UT Provo 04B")
         <> inr (Some (Text "3", true))).
Proof.
  repeat split; try (simpl; tauto); try reflexivity;
    vm_compute; discriminate.
Qed.

(** ** [get_delay_mins] and the delay *)

Lemma int_of_float_nonneg (x : Q) :
  (0 <= x)%Q -> int_of_float x = Qfloor x /\ 0 <= int_of_float x.
Proof.
  destruct x as [n d]. unfold Qle, int_of_float, Qfloor. cbn.
  intros H. assert (0 <= n) by lia.
  rewrite Z.quot_div_nonneg by lia. split; [reflexivity|].
  apply Z.div_pos; lia.
Qed.

(** C5: for every mean, standard deviation and draw, the delay is an
    integer that is never negative: [0] for a negative draw, the integer
    part of the draw otherwise; and no bound caps it. *)
Theorem get_delay_mins_clamped (normal : Q -> Q -> Q) (mu sigma : Q) :
  0 <= get_delay_mins normal mu sigma
  /\ get_delay_mins normal mu sigma
     = (if Qlt_le_dec (normal mu sigma) 0 then 0
        else Qfloor (normal mu sigma))
  /\ (forall bound : Z,
        exists draw : Q, bound < get_delay_mins (fun _ _ => draw) mu sigma).
Proof.
  unfold get_delay_mins.
  split; [|split].
  - destruct (Qlt_le_dec (normal mu sigma) 0) as [Hn|Hp].
    + cbn. lia.
    + now apply int_of_float_nonneg.
  - destruct (Qlt_le_dec (normal mu sigma) 0) as [Hn|Hp].
    + reflexivity.
    + now apply int_of_float_nonneg.
  - intros bound. exists (inject_Z (Z.max 0 bound + 1)).
    destruct (Qlt_le_dec (inject_Z (Z.max 0 bound + 1)) 0) as [Hn|Hp].
    + exfalso. revert Hn. unfold Qlt. cbn. lia.
    + unfold int_of_float, inject_Z. cbn [Qnum Qden].
      rewrite Z.quot_1_r. lia.
Qed.

(** A delay in which no sleep is cut short. *)
Lemma for_each_sleep (sleep : nat -> option exn) (l : list nat) :
  (forall i, sleep i = None) ->
  for_each l (fun i =>
    emit (Sleep 60) ;;;
    match sleep i with Some e => raise e | None => ret tt end)
  = (map (fun _ => Sleep 60) l, inr tt).
Proof.
  intros H. induction l as [|i l IH]; [reflexivity|].
  cbn [for_each map]. rewrite H, IH. reflexivity.
Qed.

Lemma delay_uninterrupted (sleep : nat -> option exn) (mins : Z) :
  (forall i, sleep i = None) ->
  delay_with_update_by_min sleep mins
  = (Log INFO ("Waiting " ++ str_of_Z mins ++ " mins")%string []
     :: map (fun _ => Sleep 60) (range mins), inr tt).
Proof.
  intros H. unfold delay_with_update_by_min.
  rewrite for_each_sleep by exact H. reflexivity.
Qed.

(** ** The message of a notification *)

(** The format has two conversions and is given one argument. *)
Lemma text_message_format (spots : string) :
  py_format MSG_TEXT_MESSAGE [spots]
  = inl (TypeError "not enough arguments for format string").
Proof. reflexivity. Qed.

(** ** The polling loop *)

Section Loop.

Variable recipients : list string.
Variable sender : option (list string).

(** A pass that ends without an exception is followed by the next one. *)
Lemma polling_continue (c : cycle) (cs : list cycle) :
  result (iteration recipients sender c) = inr tt ->
  polling recipients sender (c :: cs)
  = (trace (iteration recipients sender c)
       ++ trace (polling recipients sender cs),
     result (polling recipients sender cs)).
Proof.
  intros H. cbn [polling].
  destruct (iteration recipients sender c) as [t r]. cbn in H. subst r.
  cbn. destruct (polling recipients sender cs). reflexivity.
Qed.

(** An exception in a pass ends the loop: [KeyboardInterrupt] is logged
    and turned into [sys.exit(0)], any other class goes on to the caller. *)
Lemma polling_exn (c : cycle) (cs : list cycle) (e : exn) :
  result (iteration recipients sender c) = inl e ->
  polling recipients sender (c :: cs)
  = if is_KeyboardInterrupt e
    then (trace (iteration recipients sender c)
            ++ [Log INFO (str_exn e) []], inl (SystemExit 0))
    else (trace (iteration recipients sender c), inl e).
Proof.
  intros H. cbn [polling].
  destruct (iteration recipients sender c) as [t r]. cbn in H. subst r.
  cbn. destruct (is_KeyboardInterrupt e); reflexivity.
Qed.

(** Passes that end without an exception, one after the other. *)
Lemma polling_app (pre rest : list cycle) :
  Forall (fun c => result (iteration recipients sender c) = inr tt) pre ->
  polling recipients sender (pre ++ rest)
  = (List.concat (map (fun c => trace (iteration recipients sender c)) pre)
       ++ trace (polling recipients sender rest),
     result (polling recipients sender rest)).
Proof.
  induction 1 as [|c pre Hc Hpre IH].
  - cbn [app map List.concat]. apply surjective_M.
  - cbn [app map List.concat]. rewrite polling_continue by exact Hc.
    rewrite IH. cbn [trace result fst snd]. now rewrite app_assoc.
Qed.

(** X10: a pass in which the checker reports seats raises [TypeError] at
    the first recipient, right after the check: nothing is sent and the
    delay is not reached. *)
Lemma available_pass_raises (c : cycle) (spots : seats) :
  recipients <> [] ->
  result (isSiteAvailable (fetch c) SESSION_ID) = inr (Some (spots, true)) ->
  iteration recipients sender c
  = (trace (isSiteAvailable (fetch c) SESSION_ID),
     inl (TypeError "not enough arguments for format string")).
Proof.
  intros Hr Ha. unfold iteration.
  rewrite (bind_value _ _ _ Ha). cbn [unpack2].
  rewrite bind_ret_l. cbn [fst snd].
  destruct recipients as [|r rs]; [congruence|].
  cbn [for_each]. rewrite text_message_format.
  cbn. now rewrite app_nil_r.
Qed.

End Loop.

(** C6: a connection reset during the check is caught in the checker,
    which returns [(0, False)] instead of raising; the pass then sends
    nothing, goes on to its delay and, the delay over, the loop runs its
    next pass. *)
Theorem connection_reset_is_unavailable (recipients : list string)
  (sender : option (list string)) (c : cycle) (cs : list cycle)
  (session_id : string) :
  fetch c efy_url = inl ConnectionResetError ->
  isSiteAvailable (fetch c) session_id
  = (reset_events session_id, inr (Some (Int 0, false)))
  /\ iteration recipients sender c
     = (reset_events SESSION_ID
          ++ trace (delay_with_update_by_min (sleep c)
                      (get_delay_mins (normal c) 10 15)),
        result (delay_with_update_by_min (sleep c)
                  (get_delay_mins (normal c) 10 15)))
  /\ ((forall i, sleep c i = None) ->
      polling recipients sender (c :: cs)
      = (reset_events SESSION_ID
           ++ (Log INFO ("Waiting "
                           ++ str_of_Z (get_delay_mins (normal c) 10 15)
                           ++ " mins")%string []
               :: map (fun _ => Sleep 60)
                    (range (get_delay_mins (normal c) 10 15)))
           ++ trace (polling recipients sender cs),
         result (polling recipients sender cs))).
Proof.
  intros Hf.
  assert (Hc : forall sid, isSiteAvailable (fetch c) sid
                           = (reset_events sid, inr (Some (Int 0, false)))).
  { intros sid. unfold isSiteAvailable. fold efy_url. rewrite Hf. reflexivity. }
  assert (Hi : iteration recipients sender c
     = (reset_events SESSION_ID
          ++ trace (delay_with_update_by_min (sleep c)
                      (get_delay_mins (normal c) 10 15)),
        result (delay_with_update_by_min (sleep c)
                  (get_delay_mins (normal c) 10 15)))).
  { unfold iteration. rewrite Hc.
    rewrite (bind_value (reset_events SESSION_ID, inr (Some (Int 0, false)))
               _ (Some (Int 0, false)) eq_refl).
    cbn [unpack2]. rewrite bind_ret_l. cbn [fst snd].
    rewrite bind_ret_l. reflexivity. }
  split; [apply Hc | split; [exact Hi|]].
  intros Hs. rewrite polling_continue.
  - rewrite Hi. cbn [trace fst]. rewrite delay_uninterrupted by exact Hs.
    cbn [trace fst]. now rewrite <- app_assoc.
  - rewrite Hi. cbn [result snd]. now rewrite delay_uninterrupted by exact Hs.
Qed.

Lemma connection_reset_is_unavailable_witness :
  isSiteAvailable (fetch Sample.pass_reset) SESSION_ID
  = (reset_events SESSION_ID, inr (Some (Int 0, false)))
  /\ polling (recipients Sample.args) (sender Sample.args)
       [Sample.pass_reset; Sample.pass_reset]
     = ((reset_events SESSION_ID
           ++ [Log INFO "Waiting 2 mins" []; Sleep 60; Sleep 60])
          ++ (reset_events SESSION_ID
                ++ [Log INFO "Waiting 2 mins" []; Sleep 60; Sleep 60]),
        inr tt).
Proof.
  destruct (connection_reset_is_unavailable
              (recipients Sample.args) (sender Sample.args)
              Sample.pass_reset [Sample.pass_reset] SESSION_ID eq_refl)
    as (Hc & _ & Hp).
  split; [exact Hc|].
  rewrite Hp by reflexivity. reflexivity.
Defined.

(** ** The notifier *)

Lemma sendMessage_cases (tw : twilio) (msg : msg_body)
  (sender : option (list string)) (recipient : string) :
  sendMessage tw msg sender recipient =
  match tw msg sender recipient with
  | inl e => ([Create msg sender recipient], inl e)
  | inr sid => ([Create msg sender recipient;
                 Log INFO ("Sent message " ++ sid)%string []], inr tt)
  end.
Proof.
  unfold sendMessage, lift. destruct (tw msg sender recipient); reflexivity.
Qed.

Lemma sent_app (t1 t2 : list event) : sent (t1 ++ t2) = sent t1 ++ sent t2.
Proof. apply filter_app. Qed.

(** [sendMessage] in a [for] loop of its own, with the message given:
    the sends before the first failure go through and the failure ends
    the loop. *)
Lemma for_each_send_failure (tw : twilio) (msg : msg_body)
  (sender : option (list string)) (pre post : list string) (r : string)
  (e : exn) :
  (forall x, In x pre -> exists sid, tw msg sender x = inr sid) ->
  tw msg sender r = inl e ->
  result (for_each (pre ++ r :: post) (sendMessage tw msg sender)) = inl e
  /\ sent (trace (for_each (pre ++ r :: post) (sendMessage tw msg sender)))
     = map (Create msg sender) (pre ++ [r]).
Proof.
  intros Hpre Hr. induction pre as [|x pre IH]; cbn [app for_each map].
  - rewrite sendMessage_cases, Hr. split; reflexivity.
  - destruct (Hpre x (or_introl eq_refl)) as [sid Hx].
    destruct IH as [IH1 IH2]; [intros y Hy; apply Hpre; now right|].
    rewrite sendMessage_cases, Hx.
    destruct (for_each (pre ++ r :: post) (sendMessage tw msg sender))
      as [t res]. cbn in *. subst res. split; [reflexivity|].
    unfold sent in *. cbn. now rewrite IH2.
Qed.


(** ** Two passes that end in a traceback *)

(** C1 fails on the code: with the page of the end-to-end scenario the
    checker reports [("3", True)], and the pass then raises [TypeError]
    while it builds the message for the first recipient; no message is
    submitted and the process ends with a traceback. *)
Theorem available_poll_sends_nothing :
  result (isSiteAvailable (fetch (Sample.pass Sample.page_available))
            SESSION_ID)
  = inr (Some (Text "3", true))
  /\ sent (fst (main Sample.args
                  (Sample.run [Sample.pass Sample.page_available]))) = []
  /\ snd (main Sample.args (Sample.run [Sample.pass Sample.page_available]))
     = Traceback (TypeError "not enough arguments for format string").
Proof. repeat split; vm_compute; reflexivity. Qed.

(** C2 fails on the code: for a page without a row of the session the
    checker's loop ends without a [return], the result is [None], and the
    polling loop raises [TypeError] when it unpacks it. *)
Theorem no_match_is_None_and_crashes :
  result (isSiteAvailable (fetch (Sample.pass Sample.page_other_session))
            SESSION_ID)
  = inr None
  /\ main Sample.args (Sample.run [Sample.pass Sample.page_other_session])
     = (logging_config
          ++ [AddHandler "/home/efy/check-efy.log" WARNING;
              SetLevel "" INFO;
              Log INFO "Checking availibility for session %s" [SESSION_ID];
              Urlopen efy_url],
        Traceback (TypeError "cannot unpack non-iterable NoneType object")).
Proof. split; vm_compute; reflexivity. Qed.

(** The same for every page whose rows all have four cells and belong to
    other sessions. *)
Lemma no_match_is_None (fetch : string -> exn + table) (session_id : string)
  (rows : table) :
  fetch efy_url = inr rows ->
  (forall r, In r rows ->
             (4 <= List.length r)%nat /\ matches_session session_id r = false) ->
  result (isSiteAvailable fetch session_id) = inr None.
Proof.
  intros Hf H. rewrite (isSiteAvailable_page _ _ _ Hf).
  rewrite <- (app_nil_r rows). now rewrite scan_rows_prefix.
Qed.

(** ** Validation and the ways [main] ends *)

Lemma recipient_error_format (recipient : string) :
  py_format MSG_RECIPIENT_ERR [recipient] = inr (recipient_error recipient).
Proof. reflexivity. Qed.

(** Validation raises for the first number that the pattern rejects. *)
Lemma validate_e164_cases (numbers : list string) :
  validate_e164 numbers =
  match find rejected numbers with
  | Some bad => raise (ValueError (recipient_error bad))
  | None => ret tt
  end.
Proof.
  induction numbers as [|r numbers IH]; [reflexivity|].
  unfold validate_e164 in *. cbn [for_each find]. unfold rejected at 1.
  destruct (re_match E164 r); cbn [negb].
  - rewrite bind_ret_l. exact IH.
  - rewrite recipient_error_format. reflexivity.
Qed.

Lemma find_rejected_none (numbers : list string) :
  forallb (re_match E164) numbers = true -> find rejected numbers = None.
Proof.
  induction numbers as [|r numbers IH]; [reflexivity|].
  cbn [forallb find]. unfold rejected at 1.
  destruct (re_match E164 r); cbn [negb andb]; [exact IH|discriminate].
Qed.

(** The start of [main] up to validation, when the log file is writable
    and a sender is given. *)
Lemma main_try_validation (args : arguments) (w : world) (s : list string) :
  log_writable (os w) (log_file args) = true ->
  sender args = Some s ->
  main_try args w =
  match find rejected (recipients args ++ s) with
  | Some bad =>
      (setup_events (os w) args, inl (ValueError (recipient_error bad)))
  | None =>
      match new_client w (account_id args) (auth_token args) with
      | Some e => (setup_events (os w) args, inl e)
      | None =>
          (setup_events (os w) args
             ++ trace (polling (recipients args) (sender args) (cycles w)),
           result (polling (recipients args) (sender args) (cycles w)))
      end
  end.
Proof.
  intros Hw Hs. unfold main_try.
  rewrite setup_logger_cases, Hw. fold (setup_events (os w) args).
  rewrite (bind_value (setup_events (os w) args, inr tt) _ tt eq_refl).
  cbn [trace result fst snd].
  rewrite Hs. cbn [list_add]. rewrite bind_ret_l.
  rewrite validate_e164_cases.
  destruct (find rejected (recipients args ++ s)) as [bad|].
  - cbn [bind raise trace result fst snd]. now rewrite app_nil_r.
  - rewrite bind_ret_l.
    destruct (new_client w (account_id args) (auth_token args)) as [e|].
    + cbn [bind raise trace result fst snd]. now rewrite app_nil_r.
    + reflexivity.
Qed.


(** C8: the process exits with status 0 in both cases.  When a number of
    [recipients + sender] fails validation, [main] prints the message of
    the [ValueError] and exits with 0, and nothing of the polling loop has
    happened: the events are those of the logger's set-up and the print.
    When a pass of the loop is interrupted by the user, the loop logs the
    interrupt and exits with 0. *)
Theorem exits_with_status_0 (args : arguments) (w : world) (s : list string) :
  log_writable (os w) (log_file args) = true ->
  sender args = Some s ->
  (forall bad,
      find rejected (recipients args ++ s) = Some bad ->
      main args w
      = (setup_events (os w) args
           ++ [Print ("Value error: " ++ recipient_error bad)%string],
         Exited 0))
  /\ (forall pre c post,
        forallb (re_match E164) (recipients args ++ s) = true ->
        new_client w (account_id args) (auth_token args) = None ->
        cycles w = pre ++ c :: post ->
        Forall (fun c' => result (iteration (recipients args) (sender args) c')
                          = inr tt) pre ->
        result (iteration (recipients args) (sender args) c)
        = inl KeyboardInterrupt ->
        main args w
        = (setup_events (os w) args
             ++ List.concat (map (fun c' => trace (iteration (recipients args)
                                                (sender args) c')) pre)
             ++ trace (iteration (recipients args) (sender args) c)
             ++ [Log INFO "" []],
           Exited 0)).
Proof.
  intros Hw Hs. split.
  - intros bad Hbad. unfold main.
    rewrite (main_try_validation _ _ _ Hw Hs), Hbad. reflexivity.
  - intros pre c post Hv Hc Hcs Hpre Hk. unfold main.
    rewrite (main_try_validation _ _ _ Hw Hs).
    rewrite (find_rejected_none _ Hv), Hc, Hcs.
    rewrite (polling_app _ _ _ _ Hpre).
    rewrite (polling_exn _ _ _ _ _ Hk).
    cbn. reflexivity.
Qed.

Lemma exits_with_status_0_witness :
  main Sample.args_invalid (Sample.run [Sample.pass Sample.page_full])
  = (logging_config
       ++ [AddHandler "/home/efy/check-efy.log" WARNING; SetLevel "" INFO;
           Print ("Value error: " ++ recipient_error "6175551212")%string],
     Exited 0)
  /\ snd (main Sample.args
            (Sample.run [Sample.pass Sample.page_full;
                         Sample.pass_interrupted Sample.page_full;
                         Sample.pass Sample.page_full]))
     = Exited 0.
Proof.
  split.
  - exact (proj1 (exits_with_status_0 Sample.args_invalid
                    (Sample.run [Sample.pass Sample.page_full])
                    ["+15005550006"] eq_refl eq_refl)
             "6175551212" eq_refl).
  - rewrite (proj2 (exits_with_status_0 Sample.args
                      (Sample.run [Sample.pass Sample.page_full;
                                   Sample.pass_interrupted Sample.page_full;
                                   Sample.pass Sample.page_full])
                      ["+15005550006"] eq_refl eq_refl)
               [Sample.pass Sample.page_full]
               (Sample.pass_interrupted Sample.page_full)
               [Sample.pass Sample.page_full]).
    + reflexivity.
    + reflexivity.
    + reflexivity.
    + reflexivity.
    + constructor; [reflexivity | constructor].
    + reflexivity.
Defined.

(** ** The pattern of [validate_e164] *)

Lemma re_at_Rep_O (r : re) (lo : nat) (bos : bool) (s : string)
  (k : bool -> string -> bool) :
  re_at (Rep r lo 0) bos s k = (lo =? 0)%nat && k bos s.
Proof. reflexivity. Qed.

Lemma re_at_Rep_S (r : re) (lo hi : nat) (bos : bool) (s : string)
  (k : bool -> string -> bool) :
  re_at (Rep r lo (S hi)) bos s k
  = re_at r bos s (fun bos' s' => re_at (Rep r (Nat.pred lo) hi) bos' s' k)
    || ((lo =? 0)%nat && k bos s).
Proof. reflexivity. Qed.

(** [\d{lo,hi}] followed by [k]: a run of [lo] to [hi] digits, then [k]. *)
Lemma re_at_digits (k : string -> bool) (hi : nat) :
  forall (lo : nat) (bos : bool) (s : string),
    re_at (Rep Digit lo hi) bos s (fun _ s' => k s') = true <->
    exists ds tail,
      s = (ds ++ tail)%string /\ all_digits ds = true
      /\ (lo <= String.length ds <= hi)%nat /\ k tail = true.
Proof.
  induction hi as [|hi IH]; intros lo bos s.
  - rewrite re_at_Rep_O. split.
    + intros H. apply andb_prop in H as [Hlo Hk].
      apply Nat.eqb_eq in Hlo. exists EmptyString, s. cbn. repeat split; auto; lia.
    + intros (ds & tail & -> & _ & Hlen & Hk).
      destruct ds; [|cbn in Hlen; lia]. cbn in *.
      replace lo with O by lia. now rewrite Hk.
  - rewrite re_at_Rep_S. split.
    + intros H. apply orb_prop in H as [H|H].
      * cbn [re_at] in H. unfold one_char in H.
        destruct s as [|c s']; [discriminate|].
        apply andb_prop in H as [Hc H].
        apply IH in H as (ds & tail & -> & Hd & Hlen & Hk).
        exists (String c ds), tail. cbn. rewrite Hc, Hd.
        repeat split; auto; lia.
      * apply andb_prop in H as [Hlo Hk]. apply Nat.eqb_eq in Hlo.
        exists EmptyString, s. cbn. repeat split; auto; lia.
    + intros (ds & tail & -> & Hd & Hlen & Hk).
      destruct ds as [|c ds].
      * cbn in *. replace lo with O by lia. rewrite Hk. apply orb_true_r.
      * cbn in Hd, Hlen. apply andb_prop in Hd as [Hc Hd].
        apply orb_true_intro. left. cbn [re_at append]. unfold one_char.
        rewrite Hc. cbn [andb]. apply IH. exists ds, tail.
        repeat split; auto; lia.
Qed.

Lemma at_eol_cases (s : string) :
  at_eol s = true <-> s = EmptyString \/ s = String newline EmptyString.
Proof.
  destruct s as [|c [|c' s']]; cbn.
  - tauto.
  - rewrite Ascii.eqb_eq. split; [intros ->; now right|].
    intros [H|H]; [discriminate | now injection H].
  - split; [discriminate | intros [H|H]; discriminate].
Qed.

Lemma append_empty_r (s : string) : (s ++ EmptyString)%string = s.
Proof. induction s as [|c s IH]; cbn; congruence. Qed.

(** The pattern, read up to its run of digits. *)
Lemma re_match_E164 (s : string) :
  re_match E164 s =
  match s with
  | String c0 (String c1 s2) =>
      Ascii.eqb "+" c0
      && (in_range "1" "9" c1
          && re_at (Rep Digit 1 14) false s2 (fun _ s' => at_eol s' && true))
  | _ => false
  end.
Proof.
  destruct s as [|c0 [|c1 s2]]; try reflexivity.
  unfold re_match, E164. cbn [re_at one_char andb]. apply andb_false_r.
Qed.

(** X19: what the pattern accepts: a [+], a digit from 1 to 9 and one to
    fourteen further digits, and then the end of the string or one newline
    that ends it. *)
Lemma e164_accepts (s : string) :
  re_match E164 s = true <->
  exists d ds,
    in_range "1" "9" d = true /\ all_digits ds = true
    /\ (1 <= String.length ds <= 14)%nat
    /\ (s = String "+" (String d ds)
        \/ s = String "+" (String d (ds ++ String newline EmptyString))).
Proof.
  rewrite re_match_E164. split.
  - destruct s as [|c0 [|c1 s2]]; try discriminate.
    intros H. apply andb_prop in H as [H0 H]. apply andb_prop in H as [H1 H].
    apply Ascii.eqb_eq in H0. subst c0.
    apply (re_at_digits (fun s' => at_eol s' && true)) in H
      as (ds & tail & -> & Hd & Hlen & Hk).
    rewrite andb_true_r in Hk. apply at_eol_cases in Hk.
    exists c1, ds. repeat split; auto; try lia.
    destruct Hk as [->| ->]; [left | now right].
    now rewrite append_empty_r.
  - intros (d & ds & Hd & Hds & Hlen & Hs).
    assert (Hrun : forall tail, at_eol tail = true ->
              re_at (Rep Digit 1 14) false (ds ++ tail)
                (fun _ s' => at_eol s' && true) = true).
    { intros tail Ht.
      apply (re_at_digits (fun s' => at_eol s' && true)).
      exists ds, tail. rewrite Ht. repeat split; auto; lia. }
    destruct Hs as [-> | ->]; rewrite Ascii.eqb_refl, Hd; cbn [andb].
    + rewrite <- (append_empty_r ds) at 1. now apply Hrun.
    + now apply Hrun.
Qed.

(** The five numbers that the specification lists. *)
Lemma e164_listed_numbers :
  map (re_match E164)
    ["+16175551212"; "6175551212"; "+0175551212"; "+123456789012345";
     "+1234567890123456"]
  = [true; false; false; true; false].
Proof. vm_compute. reflexivity. Qed.

(** C4 fails on the code: a number followed by a newline is not a [+]
    and 2 to 15 digits, yet the pattern matches it and validation passes
    it without a [ValueError]. *)
Theorem trailing_newline_passes_validation :
  String.length Sample.with_newline = 13%nat
  /\ String.get 12 Sample.with_newline = Some newline
  /\ isdigit newline = false
  /\ re_match E164 Sample.with_newline = true
  /\ validate_e164 [Sample.with_newline] = ret tt.
Proof. repeat split; vm_compute; reflexivity. Qed.

(** ** No run of the script submits a message *)

Lemma quiet_ret {A} (a : A) : quiet (ret a).
Proof. reflexivity. Qed.

Lemma quiet_raise {A} (e : exn) : quiet (@raise A e).
Proof. reflexivity. Qed.

Lemma quiet_lift {A} (r : exn + A) : quiet (lift r).
Proof. reflexivity. Qed.

Lemma quiet_emit (ev : event) : is_create ev = false -> quiet (emit ev).
Proof. unfold quiet, sent. cbn. now intros ->. Qed.

Lemma quiet_bind {A B} (m : M A) (k : A -> M B) :
  quiet m -> (forall a, quiet (k a)) -> quiet (bind m k).
Proof.
  unfold quiet, trace. destruct m as [t [e|a]]; cbn [bind fst];
    intros Hm Hk; [exact Hm|].
  specialize (Hk a). destruct (k a) as [t' r]. cbn [fst] in *.
  now rewrite sent_app, Hm, Hk.
Qed.

Lemma quiet_try_except {A} (m : M A) (catches : exn -> bool)
  (h : exn -> M A) :
  quiet m -> (forall e, quiet (h e)) -> quiet (try_except m catches h).
Proof.
  unfold quiet, trace. destruct m as [t [e|a]]; cbn [try_except fst];
    intros Hm Hh; [|exact Hm].
  destruct (catches e); [|exact Hm].
  specialize (Hh e). destruct (h e) as [t' r]. cbn [fst] in *.
  now rewrite sent_app, Hm, Hh.
Qed.

Lemma quiet_for_each {A} (xs : list A) (body : A -> M unit) :
  (forall x, quiet (body x)) -> quiet (for_each xs body).
Proof.
  intros H. induction xs as [|x xs IH]; [reflexivity|].
  cbn [for_each]. apply quiet_bind; auto.
Qed.

Ltac quiet := repeat (intros; first
  [ apply quiet_ret | apply quiet_raise | apply quiet_lift
  | apply quiet_emit; reflexivity
  | apply quiet_bind | apply quiet_try_except | apply quiet_for_each ]).

Lemma quiet_index {A} (xs : list A) (i : nat) : quiet (index xs i).
Proof. unfold index. destruct (nth_error xs i); quiet. Qed.

Lemma quiet_scan_rows (session_id : string) (rows : table) :
  quiet (scan_rows session_id rows).
Proof.
  induction rows as [|row rows IH]; [reflexivity|].
  cbn [scan_rows].
  apply quiet_bind; [apply quiet_index|intros c0].
  apply quiet_bind; [apply quiet_index|intros c1].
  apply quiet_bind; [apply quiet_index|intros c3].
  destruct (String.eqb c0 session_id); [|exact IH].
  destruct (String.eqb c3 "Full"); quiet.
Qed.

Lemma quiet_isSiteAvailable (fetch : string -> exn + table)
  (session_id : string) : quiet (isSiteAvailable fetch session_id).
Proof. unfold isSiteAvailable. quiet. apply quiet_scan_rows. Qed.

Lemma quiet_delay (sleep : nat -> option exn) (mins : Z) :
  quiet (delay_with_update_by_min sleep mins).
Proof.
  unfold delay_with_update_by_min. quiet.
  destruct (sleep x); quiet.
Qed.

(** The pass never reaches [sendMessage]: building the message raises. *)
Lemma quiet_iteration (recipients : list string)
  (sender : option (list string)) (c : cycle) :
  quiet (iteration recipients sender c).
Proof.
  unfold iteration.
  apply quiet_bind; [apply quiet_isSiteAvailable|intros r].
  apply quiet_bind; [destruct r; quiet|intros p].
  apply quiet_bind; [|intros _; apply quiet_delay].
  destruct (snd p); [|quiet].
  apply quiet_for_each. intros recipient.
  rewrite text_message_format. reflexivity.
Qed.

Lemma quiet_polling (recipients : list string)
  (sender : option (list string)) (cs : list cycle) :
  quiet (polling recipients sender cs).
Proof.
  induction cs as [|c cs IH]; [reflexivity|].
  cbn [polling]. apply quiet_bind; [|intros _; exact IH].
  apply quiet_try_except; [apply quiet_iteration|]. intros e. unfold sys_exit. quiet.
Qed.

Lemma quiet_main_try (args : arguments) (w : world) : quiet (main_try args w).
Proof.
  unfold main_try.
  apply quiet_bind.
  - rewrite setup_logger_cases.
    destruct (log_writable (os w) (log_file args)); reflexivity.
  - intros _. apply quiet_bind.
    + destruct (sender args); quiet.
    + intros numbers. apply quiet_bind.
      * rewrite validate_e164_cases. destruct (find rejected numbers); quiet.
      * intros _.
        destruct (new_client w (account_id args) (auth_token args)); quiet.
        apply quiet_polling.
Qed.

(** X11: whatever the command line and the world, [main] submits no
    message to the provider. *)
Lemma main_never_sends (args : arguments) (w : world) :
  sent (fst (main args w)) = [].
Proof.
  pose proof (quiet_main_try args w) as H. unfold quiet, trace in H.
  unfold main. destruct (main_try args w) as [t [e|[]]]; cbn [fst] in *.
  - destruct (is_ValueError e); cbn [fst]; [|exact H].
    now rewrite sent_app, H.
  - exact H.
Qed.

(** * Further properties of the script *)

(** ** The delay *)

Lemma slept_sleeps (l : list nat) :
  slept (map (fun _ => Sleep 60) l) = 60 * Z.of_nat (List.length l).
Proof.
  induction l as [|i l IH]; [reflexivity|].
  cbn [map slept List.length]. rewrite IH. lia.
Qed.

(** X1: a delay that nothing cuts short logs once, sleeps one minute for
    each of the [mins] minutes, none when [mins] is not positive, and ends
    without an exception. *)
Theorem delay_sleeps_whole_minutes (sleep : nat -> option exn) (mins : Z) :
  (forall i, sleep i = None) ->
  result (delay_with_update_by_min sleep mins) = inr tt
  /\ slept (trace (delay_with_update_by_min sleep mins)) = 60 * Z.max 0 mins
  /\ List.length (trace (delay_with_update_by_min sleep mins))
     = S (Z.to_nat mins).
Proof.
  intros H. rewrite delay_uninterrupted by exact H.
  cbn [result trace fst snd slept List.length].
  rewrite slept_sleeps, length_map. unfold range. rewrite length_seq.
  repeat split. lia.
Qed.

Lemma delay_sleeps_whole_minutes_witness :
  slept (trace (delay_with_update_by_min (fun _ => None) 3)) = 180
  /\ slept (trace (delay_with_update_by_min (fun _ => None) (-2))) = 0.
Proof.
  split.
  - now rewrite (proj1 (proj2 (delay_sleeps_whole_minutes (fun _ => None) 3
                                 (fun _ => eq_refl)))).
  - now rewrite (proj1 (proj2 (delay_sleeps_whole_minutes (fun _ => None) (-2)
                                 (fun _ => eq_refl)))).
Defined.

(** The sleeps from minute [a] on, of which minute [a + k] is the first
    that an exception cuts short. *)
Lemma for_each_sleep_cut (sleep : nat -> option exn) (e : exn) (k : nat) :
  forall (a n : nat),
    (k < n)%nat ->
    (forall j, (j < k)%nat -> sleep (a + j)%nat = None) ->
    sleep (a + k)%nat = Some e ->
    for_each (seq a n) (fun i =>
      emit (Sleep 60) ;;;
      match sleep i with Some e => raise e | None => ret tt end)
    = (repeat (Sleep 60) (S k), inl e).
Proof.
  induction k as [|k IH]; intros a n Hn Hbefore Hk.
  - destruct n as [|n]; [lia|]. cbn [seq for_each].
    rewrite Nat.add_0_r in Hk. rewrite Hk. reflexivity.
  - destruct n as [|n]; [lia|]. cbn [seq for_each].
    pose proof (Hbefore O ltac:(lia)) as H0. rewrite Nat.add_0_r in H0.
    rewrite H0.
    rewrite (IH (S a) n).
    + reflexivity.
    + lia.
    + intros j Hj. replace (S a + j)%nat with (a + S j)%nat by lia.
      apply Hbefore. lia.
    + now replace (S a + k)%nat with (a + S k)%nat by lia.
Qed.

(** X2: when minute [k] of the delay is the first that an exception cuts
    short, the delay ends there with that exception: the minutes after it
    are not slept. *)
Theorem delay_cut_short (sleep : nat -> option exn) (mins : Z) (k : nat)
  (e : exn) :
  (k < Z.to_nat mins)%nat ->
  (forall j, (j < k)%nat -> sleep j = None) ->
  sleep k = Some e ->
  delay_with_update_by_min sleep mins
  = (Log INFO ("Waiting " ++ str_of_Z mins ++ " mins")%string []
     :: repeat (Sleep 60) (S k), inl e).
Proof.
  intros Hk Hbefore He. unfold delay_with_update_by_min, range.
  rewrite (for_each_sleep_cut sleep e k 0 (Z.to_nat mins) Hk Hbefore He).
  reflexivity.
Qed.

Lemma delay_cut_short_witness :
  delay_with_update_by_min
    (fun i => if (i =? 1)%nat then Some KeyboardInterrupt else None) 5
  = ([Log INFO "Waiting 5 mins" []; Sleep 60; Sleep 60],
     inl KeyboardInterrupt).
Proof.
  apply (delay_cut_short _ 5 1 KeyboardInterrupt).
  - simpl. lia.
  - intros j Hj. destruct j as [|j]; [reflexivity|lia].
  - reflexivity.
Defined.

(** ** [setup_logger] when the log file is writable *)

(** X3: [setup_logger] completes exactly when the resolved log file is
    writable; it then configures the console, adds one file handler at the
    resolved path, at level [INFO] when [verbose] and [WARNING] otherwise,
    and sets the root logger to [INFO]. *)
Theorem setup_logger_completes_iff (os : os_env) (log_file : option string)
  (verbose : bool) :
  (result (setup_logger os log_file verbose) = inr tt
   <-> log_writable os log_file = true)
  /\ (log_writable os log_file = true ->
      trace (setup_logger os log_file verbose)
      = logging_config
          ++ [AddHandler (log_path os log_file)
                (if verbose then INFO else WARNING);
              SetLevel "" INFO]).
Proof.
  rewrite setup_logger_cases.
  destruct (log_writable os log_file); cbn [result trace fst snd].
  - split; [tauto | reflexivity].
  - split; [split; discriminate | discriminate].
Qed.

Lemma setup_logger_completes_iff_witness :
  trace (setup_logger Sample.os_writable (Some "efy.log") true)
  = logging_config
      ++ [AddHandler "/home/efy/efy.log" INFO; SetLevel "" INFO].
Proof.
  exact (proj2 (setup_logger_completes_iff Sample.os_writable
                  (Some "efy.log") true) eq_refl).
Defined.

(** ** The checker on every page *)

(** The three ways the scan of a page ends: without a row of the session,
    on a short row, or on the first row of the session. *)
Lemma scan_rows_outcomes (session_id : string) (rows : table) :
  scan_rows session_id rows = ret None
  \/ scan_rows session_id rows = raise out_of_range
  \/ exists row c_date c_seats,
       In row rows
       /\ cell row 0 = Some session_id
       /\ cell row 1 = Some c_date
       /\ cell row 3 = Some c_seats
       /\ scan_rows session_id rows
          = ([row_log session_id c_date c_seats],
             inr (Some (row_result c_seats))).
Proof.
  induction rows as [|row rows IH]; [now left|].
  destruct (Nat.lt_ge_cases (List.length row) 4) as [Hs|Hl].
  - right. left. now apply scan_rows_short.
  - destruct (matches_session session_id row) eqn:Hm.
    + right. right.
      destruct (cell_some row 1) as [c1 E1]; [lia|].
      destruct (cell_some row 3) as [c3 E3]; [lia|].
      exists row, c1, c3. unfold matches_session in Hm.
      destruct (cell row 0) as [c0|] eqn:E0; [|discriminate].
      apply String.eqb_eq in Hm. subst c0.
      repeat split; auto; [now left|].
      cbn [scan_rows]. rewrite !index_cell, E0, E1, E3.
      rewrite !bind_ret_l, String.eqb_refl.
      unfold row_log, row_result.
      destruct (String.eqb c3 "Full"); reflexivity.
    + rewrite scan_rows_skip by assumption.
      destruct IH as [IH|[IH|(r & c1 & c3 & Hin & H0 & H1 & H3 & IH)]].
      * now left.
      * right. now left.
      * right. right. exists r, c1, c3. repeat split; auto. now right.
Qed.

(** X4: an exception of the fetch that is not a [ConnectionResetError]
    leaves the checker as it is, after the fetch and with no error line
    logged: the handler takes that one class only. *)
Theorem fetch_error_propagates (fetch : string -> exn + table)
  (session_id : string) (e : exn) :
  fetch efy_url = inl e ->
  is_ConnectionResetError e = false ->
  isSiteAvailable fetch session_id
  = ([Log INFO "Checking availibility for session %s" [session_id];
      Urlopen efy_url], inl e).
Proof.
  intros Hf He. unfold isSiteAvailable. fold efy_url. rewrite Hf.
  cbn. rewrite He. reflexivity.
Qed.

Lemma fetch_error_propagates_witness :
  isSiteAvailable (fetch (Sample.pass_failing (OtherError "URLError")))
    SESSION_ID
  = ([Log INFO "Checking availibility for session %s" [SESSION_ID];
      Urlopen efy_url], inl (OtherError "URLError")).
Proof.
  apply fetch_error_propagates; reflexivity.
Defined.

(** X5: whatever the fetch yields, a result of the checker that is not
    [None] has one of two shapes: the integer [0] with [False], or a text
    other than ["Full"] with [True]. *)
Theorem availability_shapes (fetch : string -> exn + table)
  (session_id : string) (spots : seats) (available : bool) :
  result (isSiteAvailable fetch session_id) = inr (Some (spots, available)) ->
  (spots = Int 0 /\ available = false)
  \/ (exists v, spots = Text v /\ v <> "Full" /\ available = true).
Proof.
  destruct (fetch efy_url) as [e|rows] eqn:Hf.
  - destruct (is_ConnectionResetError e) eqn:He.
    + unfold isSiteAvailable. fold efy_url. rewrite Hf. cbn. rewrite He. cbn.
      intros H. injection H as <- <-. now left.
    + unfold isSiteAvailable. fold efy_url. rewrite Hf. cbn. rewrite He.
      discriminate.
  - rewrite (isSiteAvailable_page _ _ _ Hf).
    destruct (scan_rows_outcomes session_id rows)
      as [H|[H|(r & c1 & c3 & _ & _ & _ & _ & H)]];
      rewrite H; cbn [result snd ret raise]; try discriminate.
    unfold row_result. destruct (String.eqb c3 "Full") eqn:E;
      intros Hr; injection Hr as <- <-.
    + now left.
    + right. exists c3. repeat split. intros ->. discriminate.
Qed.

Lemma availability_shapes_witness :
  (Text "3" = Int 0 /\ true = false)
  \/ (exists v, Text "3" = Text v /\ v <> "Full" /\ true = true).
Proof.
  apply (availability_shapes (fetch (Sample.pass Sample.page_available))
           SESSION_ID).
  reflexivity.
Defined.

(** X6: a seat count that the checker reports for a fetched page is the
    stripped seat cell of a row of that page whose stripped session cell
    is the queried identifier. *)
Theorem reported_seats_are_on_the_page (fetch : string -> exn + table)
  (session_id : string) (rows : table) (v : string) :
  fetch efy_url = inr rows ->
  result (isSiteAvailable fetch session_id) = inr (Some (Text v, true)) ->
  exists row,
    In row rows /\ cell row 0 = Some session_id /\ cell row 3 = Some v.
Proof.
  intros Hf. rewrite (isSiteAvailable_page _ _ _ Hf).
  destruct (scan_rows_outcomes session_id rows)
    as [H|[H|(r & c1 & c3 & Hin & H0 & _ & H3 & H)]];
    rewrite H; cbn [result snd ret raise]; try discriminate.
  unfold row_result. destruct (String.eqb c3 "Full"); [discriminate|].
  intros Hr. injection Hr as <-. now exists r.
Qed.

Lemma reported_seats_are_on_the_page_witness :
  exists row,
    In row Sample.page_padded
    /\ cell row 0 = Some SESSION_ID /\ cell row 3 = Some "3".
Proof.
  apply (reported_seats_are_on_the_page (fun _ => inr Sample.page_padded)
           SESSION_ID Sample.page_padded "3"); reflexivity.
Defined.

Lemma fetched_app (t1 t2 : list event) :
  fetched (t1 ++ t2) = fetched t1 ++ fetched t2.
Proof. apply filter_app. Qed.

(** X7: a check fetches the page once, from the fixed address, whatever
    the fetch yields and whatever the page holds: nothing is tried again. *)
Theorem one_fetch_per_check (fetch : string -> exn + table)
  (session_id : string) :
  fetched (trace (isSiteAvailable fetch session_id)) = [Urlopen efy_url].
Proof.
  destruct (fetch efy_url) as [e|rows] eqn:Hf.
  - unfold isSiteAvailable. fold efy_url. rewrite Hf. cbn.
    destruct (is_ConnectionResetError e); reflexivity.
  - rewrite (isSiteAvailable_page _ _ _ Hf). cbn [trace fst].
    destruct (scan_rows_outcomes session_id rows)
      as [H|[H|(r & c1 & c3 & _ & _ & _ & _ & H)]]; rewrite H; reflexivity.
Qed.

(** ** Stripped cells *)

Lemma lstrip_head (c : ascii) (s : string) :
  isspace c = false -> lstrip (String c s) = String c s.
Proof. intros H. cbn. now rewrite H. Qed.

(** [lstrip s] is empty or begins with a character that is not a space. *)
Lemma lstrip_cases (s : string) :
  lstrip s = EmptyString
  \/ exists c s', lstrip s = String c s' /\ isspace c = false.
Proof.
  induction s as [|c s IH]; [now left|].
  cbn. destruct (isspace c) eqn:E; [exact IH|].
  right. now exists c, s.
Qed.

Lemma rstrip_idempotent (s : string) : rstrip (rstrip s) = rstrip s.
Proof.
  induction s as [|c s IH]; [reflexivity|].
  cbn [rstrip]. destruct (rstrip s) as [|d r] eqn:E.
  - destruct (isspace c) eqn:Ec; [reflexivity|].
    cbn [rstrip]. now rewrite Ec.
  - cbn [rstrip]. cbn [rstrip] in IH. rewrite IH. reflexivity.
Qed.

(** [rstrip] keeps a first character that is not a space. *)
Lemma rstrip_head (c : ascii) (s : string) :
  isspace c = false -> exists r, rstrip (String c s) = String c r.
Proof.
  intros H. cbn [rstrip]. destruct (rstrip s) as [|d r].
  - rewrite H. now exists EmptyString.
  - now exists (String d r).
Qed.

(** The strip of a string is stripped. *)
Lemma strip_idempotent (s : string) : strip (strip s) = strip s.
Proof.
  unfold strip.
  assert (H : lstrip (rstrip (lstrip s)) = rstrip (lstrip s)).
  { destruct (lstrip_cases s) as [-> | (c & s' & -> & Hc)]; [reflexivity|].
    destruct (rstrip_head c s' Hc) as [r ->]. now apply lstrip_head. }
  rewrite H. apply rstrip_idempotent.
Qed.

Lemma cell_stripped (row : list string) (i : nat) (c : string) :
  cell row i = Some c -> stripped c.
Proof.
  unfold cell, stripped. rewrite nth_error_map.
  destruct (nth_error row i) as [x|]; [|discriminate].
  cbn. intros H. injection H as <-. apply strip_idempotent.
Qed.

(** X8: the checker compares stripped cells with the identifier as it is
    given, so for an identifier that begins or ends with white space no row
    of a fetched page is its row: the checker returns [None] or raises,
    and never a result. *)
Theorem padded_identifier_never_matches (fetch : string -> exn + table)
  (session_id : string) (rows : table) :
  fetch efy_url = inr rows ->
  strip session_id <> session_id ->
  result (isSiteAvailable fetch session_id) = inr None
  \/ result (isSiteAvailable fetch session_id) = inl out_of_range.
Proof.
  intros Hf Hs. rewrite (isSiteAvailable_page _ _ _ Hf).
  destruct (scan_rows_outcomes session_id rows)
    as [H|[H|(r & c1 & c3 & _ & H0 & _ & _ & _)]].
  - left. now rewrite H.
  - right. now rewrite H.
  - exfalso. apply Hs. exact (cell_stripped _ _ _ H0).
Qed.

Lemma padded_identifier_never_matches_witness :
  result (isSiteAvailable (fun _ => inr Sample.page_available)
            " UT Provo 04B") = inr None
  \/ result (isSiteAvailable (fun _ => inr Sample.page_available)
               " UT Provo 04B") = inl out_of_range.
Proof.
  apply (padded_identifier_never_matches _ _ Sample.page_available).
  - reflexivity.
  - vm_compute. discriminate.
Defined.

(** ** Passes of the loop *)

(** A pass in which the checker reports no seats goes on to its delay. *)
Lemma unavailable_pass (recipients : list string)
  (sender : option (list string)) (c : cycle) (spots : seats) :
  result (isSiteAvailable (fetch c) SESSION_ID) = inr (Some (spots, false)) ->
  iteration recipients sender c
  = (trace (isSiteAvailable (fetch c) SESSION_ID)
       ++ trace (delay_with_update_by_min (sleep c)
                   (get_delay_mins (normal c) 10 15)),
     result (delay_with_update_by_min (sleep c)
               (get_delay_mins (normal c) 10 15))).
Proof.
  intros Ha. unfold iteration.
  rewrite (bind_value _ _ _ Ha). cbn [unpack2].
  rewrite bind_ret_l. cbn [fst snd]. rewrite bind_ret_l.
  reflexivity.
Qed.

(** X9: when the first row of the session on the page is full, and the
    rows before it have four cells each, the pass logs that no spots are
    left and goes on to its delay: it ends as the delay ends. *)
Theorem full_session_waits (recipients : list string)
  (sender : option (list string)) (c : cycle) (pre post : table)
  (row : list string) (c_date : string) :
  fetch c efy_url = inr (pre ++ row :: post) ->
  (forall r, In r pre ->
             (4 <= List.length r)%nat /\ matches_session SESSION_ID r = false) ->
  cell row 0 = Some SESSION_ID ->
  cell row 1 = Some c_date ->
  cell row 3 = Some "Full" ->
  iteration recipients sender c
  = ([Log INFO "Checking availibility for session %s" [SESSION_ID];
      Urlopen efy_url;
      Log INFO MSG_UNAVAILABLE ["Full"; SESSION_ID; c_date]]
       ++ trace (delay_with_update_by_min (sleep c)
                   (get_delay_mins (normal c) 10 15)),
     result (delay_with_update_by_min (sleep c)
               (get_delay_mins (normal c) 10 15))).
Proof.
  intros Hf Hpre H0 H1 H3.
  assert (Hc : isSiteAvailable (fetch c) SESSION_ID
               = ([Log INFO "Checking availibility for session %s" [SESSION_ID];
                   Urlopen efy_url;
                   Log INFO MSG_UNAVAILABLE ["Full"; SESSION_ID; c_date]],
                  inr (Some (Int 0, false)))).
  { rewrite (isSiteAvailable_page _ _ _ Hf).
    rewrite scan_rows_prefix by exact Hpre.
    cbn [scan_rows]. rewrite !index_cell, H0, H1, H3.
    rewrite !bind_ret_l. reflexivity. }
  rewrite (unavailable_pass _ _ _ (Int 0)); rewrite Hc; reflexivity.
Qed.

Lemma full_session_waits_witness :
  iteration (recipients Sample.args) (sender Sample.args)
    (Sample.pass (Sample.page_other_session ++ Sample.page_full))
  = ([Log INFO "Checking availibility for session %s" [SESSION_ID];
      Urlopen efy_url;
      Log INFO MSG_UNAVAILABLE ["Full"; SESSION_ID; "2024-06-01"];
      Log INFO "Waiting 2 mins" []; Sleep 60; Sleep 60], inr tt).
Proof.
  rewrite (full_session_waits _ _ _ Sample.page_other_session []
             ["UT Provo 04B"; "2024-06-01"; "-"; "Full"] "2024-06-01").
  - reflexivity.
  - reflexivity.
  - intros r [<-|[]]. split; [simpl; lia | reflexivity].
  - reflexivity.
  - reflexivity.
  - reflexivity.
Defined.

Lemma available_pass_raises_witness :
  iteration (recipients Sample.args) (sender Sample.args)
    (Sample.pass Sample.page_available)
  = ([Log INFO "Checking availibility for session %s" [SESSION_ID];
      Urlopen efy_url;
      Log INFO MSG_AVAILABLE ["3"; SESSION_ID; "2024-06-01"]],
     inl (TypeError "not enough arguments for format string")).
Proof.
  rewrite (available_pass_raises (recipients Sample.args)
             (sender Sample.args) (Sample.pass Sample.page_available)
             (Text "3")).
  - reflexivity.
  - discriminate.
  - reflexivity.
Defined.

(** ** How [main] ends *)

(** [main] up to the loop, when it gets that far. *)
Lemma main_try_started (args : arguments) (w : world) (s : list string) :
  starts args w s ->
  main_try args w
  = (setup_events (os w) args
       ++ trace (polling (recipients args) (sender args) (cycles w)),
     result (polling (recipients args) (sender args) (cycles w))).
Proof.
  intros (Hw & Hs & Hv & Hc).
  rewrite (main_try_validation _ _ _ Hw Hs).
  now rewrite (find_rejected_none _ Hv), Hc.
Qed.

(** The loop up to a pass that raises. *)
Lemma main_try_pass_raises (args : arguments) (w : world) (s : list string)
  (pre post : list cycle) (c : cycle) (e : exn) :
  starts args w s ->
  cycles w = pre ++ c :: post ->
  Forall (completes args) pre ->
  result (iteration (recipients args) (sender args) c) = inl e ->
  is_KeyboardInterrupt e = false ->
  main_try args w
  = (setup_events (os w) args ++ pass_events args pre
       ++ trace (iteration (recipients args) (sender args) c), inl e).
Proof.
  intros Hst Hcs Hpre He Hk.
  rewrite (main_try_started _ _ _ Hst), Hcs.
  rewrite (polling_app _ _ _ _ Hpre).
  rewrite (polling_exn _ _ _ _ _ He), Hk.
  reflexivity.
Qed.

(** X12: without [--sender], [recipients + sender] raises [TypeError]
    before anything is validated; no handler takes it and the process ends
    with a traceback, whatever the recipients are. *)
Theorem main_without_sender (args : arguments) (w : world) :
  log_writable (os w) (log_file args) = true ->
  sender args = None ->
  main args w
  = (setup_events (os w) args,
     Traceback (TypeError ("can only concatenate list (not " ++ dquote
                           ++ "NoneType" ++ dquote ++ ") to list")%string)).
Proof.
  intros Hw Hs. unfold main, main_try.
  rewrite setup_logger_cases, Hw. fold (setup_events (os w) args).
  rewrite (bind_value (setup_events (os w) args, inr tt) _ tt eq_refl).
  cbn [trace result fst snd]. rewrite Hs. cbn [list_add].
  cbn [bind raise]. rewrite app_nil_r. reflexivity.
Qed.

Lemma main_without_sender_witness :
  snd (main Sample.args_no_sender
         (Sample.run [Sample.pass Sample.page_full]))
  = Traceback (TypeError ("can only concatenate list (not " ++ dquote
                          ++ "NoneType" ++ dquote ++ ") to list")%string).
Proof.
  now rewrite (main_without_sender Sample.args_no_sender
                 (Sample.run [Sample.pass Sample.page_full])
                 eq_refl eq_refl).
Defined.

(** X13: when the log file is not writable, [main] ends with the
    traceback of the [UnboundLocalError] right after the console
    configuration: nothing is validated, so an invalid recipient gets no
    message, and nothing is polled. *)
Theorem main_with_unwritable_log (args : arguments) (w : world) :
  log_writable (os w) (log_file args) = false ->
  main args w = (logging_config, Traceback unbound_err_handler).
Proof.
  intros Hw. unfold main, main_try.
  rewrite setup_logger_cases, Hw. reflexivity.
Qed.

Lemma main_with_unwritable_log_witness :
  main Sample.args_invalid
    (Sample.run_readonly [Sample.pass Sample.page_full])
  = (logging_config, Traceback unbound_err_handler).
Proof.
  apply main_with_unwritable_log. reflexivity.
Defined.

(** X14: the handler for [ValueError] around the whole of [main] also
    covers the loop: a [ValueError] that a pass raises is printed as a
    value error and the process exits with status 0; the passes after it
    do not run. *)
Theorem value_error_in_pass_exits_0 (args : arguments) (w : world)
  (s : list string) (pre post : list cycle) (c : cycle) (msg : string) :
  starts args w s ->
  cycles w = pre ++ c :: post ->
  Forall (completes args) pre ->
  result (iteration (recipients args) (sender args) c)
  = inl (ValueError msg) ->
  main args w
  = ((setup_events (os w) args ++ pass_events args pre
        ++ trace (iteration (recipients args) (sender args) c))
       ++ [Print ("Value error: " ++ msg)%string],
     Exited 0).
Proof.
  intros Hst Hcs Hpre He. unfold main.
  rewrite (main_try_pass_raises _ _ _ _ _ _ _ Hst Hcs Hpre He eq_refl).
  reflexivity.
Qed.

Lemma value_error_in_pass_exits_0_witness :
  snd (main Sample.args
         (Sample.run [Sample.pass Sample.page_full;
                      Sample.pass_failing (ValueError "unknown url type");
                      Sample.pass Sample.page_full]))
  = Exited 0.
Proof.
  rewrite (value_error_in_pass_exits_0 Sample.args
             (Sample.run [Sample.pass Sample.page_full;
                          Sample.pass_failing (ValueError "unknown url type");
                          Sample.pass Sample.page_full])
             ["+15005550006"] [Sample.pass Sample.page_full]
             [Sample.pass Sample.page_full]
             (Sample.pass_failing (ValueError "unknown url type"))
             "unknown url type").
  - reflexivity.
  - repeat split; reflexivity.
  - reflexivity.
  - constructor; [reflexivity | constructor].
  - reflexivity.
Defined.

(** X15: an exception of a pass that is neither a [KeyboardInterrupt], a
    [ValueError] nor a [SystemExit] ends the process with its traceback
    after the events of that pass: the passes after it do not run. *)
Theorem unhandled_exception_ends_polling (args : arguments) (w : world)
  (s : list string) (pre post : list cycle) (c : cycle) (e : exn) :
  starts args w s ->
  cycles w = pre ++ c :: post ->
  Forall (completes args) pre ->
  result (iteration (recipients args) (sender args) c) = inl e ->
  is_KeyboardInterrupt e = false ->
  is_ValueError e = false ->
  (forall code, e <> SystemExit code) ->
  main args w
  = (setup_events (os w) args ++ pass_events args pre
       ++ trace (iteration (recipients args) (sender args) c),
     Traceback e).
Proof.
  intros Hst Hcs Hpre He Hk Hv Hx. unfold main.
  rewrite (main_try_pass_raises _ _ _ _ _ _ _ Hst Hcs Hpre He Hk), Hv.
  destruct e; try reflexivity. now destruct (Hx code).
Qed.

Lemma unhandled_exception_ends_polling_witness :
  snd (main Sample.args
         (Sample.run [Sample.pass Sample.page_full;
                      Sample.pass Sample.page_heading;
                      Sample.pass Sample.page_full]))
  = Traceback out_of_range.
Proof.
  rewrite (unhandled_exception_ends_polling Sample.args
             (Sample.run [Sample.pass Sample.page_full;
                          Sample.pass Sample.page_heading;
                          Sample.pass Sample.page_full])
             ["+15005550006"] [Sample.pass Sample.page_full]
             [Sample.pass Sample.page_full]
             (Sample.pass Sample.page_heading) out_of_range).
  - reflexivity.
  - repeat split; reflexivity.
  - reflexivity.
  - constructor; [reflexivity | constructor].
  - reflexivity.
  - reflexivity.
  - reflexivity.
  - discriminate.
Defined.

(** X16: the loop has no exit of its own: as long as every pass ends
    without an exception the process is still polling, and what it has
    done is the set-up followed by the events of the passes in order. *)
Theorem completed_passes_keep_polling (args : arguments) (w : world)
  (s : list string) :
  starts args w s ->
  Forall (completes args) (cycles w) ->
  main args w
  = (setup_events (os w) args ++ pass_events args (cycles w), Polling).
Proof.
  intros Hst Hall. unfold main.
  rewrite (main_try_started _ _ _ Hst).
  assert (Hp : polling (recipients args) (sender args) (cycles w)
               = (pass_events args (cycles w), inr tt)).
  { rewrite <- (app_nil_r (cycles w)) at 1.
    rewrite (polling_app _ _ _ _ Hall).
    cbn [polling ret trace result fst snd]. now rewrite app_nil_r. }
  rewrite Hp. reflexivity.
Qed.

Lemma completed_passes_keep_polling_witness :
  snd (main Sample.args
         (Sample.run [Sample.pass Sample.page_full; Sample.pass_reset;
                      Sample.pass Sample.page_full]))
  = Polling.
Proof.
  rewrite (completed_passes_keep_polling Sample.args
             (Sample.run [Sample.pass Sample.page_full; Sample.pass_reset;
                          Sample.pass Sample.page_full])
             ["+15005550006"]).
  - reflexivity.
  - repeat split; reflexivity.
  - repeat constructor.
Defined.

(** ** Validation of a list of numbers *)

Lemma find_rejected_some (numbers : list string) (bad : string) :
  find rejected numbers = Some bad ->
  forallb (re_match E164) numbers = false.
Proof.
  induction numbers as [|r numbers IH]; [discriminate|].
  cbn [find forallb]. unfold rejected at 1.
  destruct (re_match E164 r); cbn [negb andb]; [exact IH | reflexivity].
Qed.

(** X17: validation lets a list pass exactly when the pattern matches
    every number of it, and does nothing else on the way: it neither logs
    nor prints. *)
Theorem validation_passes_iff (numbers : list string) :
  (validate_e164 numbers = ret tt
   <-> forallb (re_match E164) numbers = true)
  /\ trace (validate_e164 numbers) = [].
Proof.
  rewrite validate_e164_cases.
  destruct (find rejected numbers) as [bad|] eqn:E.
  - rewrite (find_rejected_some _ _ E).
    split; [split; discriminate | reflexivity].
  - split; [|reflexivity]. split; [intros _|reflexivity].
    induction numbers as [|r numbers IH]; [reflexivity|].
    cbn [find forallb] in *. unfold rejected at 1 in E.
    destruct (re_match E164 r); cbn [negb andb] in *; [auto | discriminate].
Qed.

(** X18: validation raises for the first number that the pattern rejects,
    and its message names that number; the numbers after it play no part. *)
Theorem validation_reports_first_rejected (pre post : list string)
  (bad : string) :
  forallb (re_match E164) pre = true ->
  re_match E164 bad = false ->
  validate_e164 (pre ++ bad :: post) = raise (ValueError (recipient_error bad)).
Proof.
  intros Hpre Hbad. rewrite validate_e164_cases.
  replace (find rejected (pre ++ bad :: post)) with (Some bad); [reflexivity|].
  induction pre as [|r pre IH]; cbn [app find forallb] in *.
  - unfold rejected. now rewrite Hbad.
  - unfold rejected at 1. apply andb_prop in Hpre as [Hr Hpre].
    rewrite Hr. cbn [negb]. now apply IH.
Qed.

Lemma validation_reports_first_rejected_witness :
  validate_e164 ["+16175551212"; "6175551212"; "+0175551212"]
  = raise (ValueError (recipient_error "6175551212")).
Proof.
  apply (validation_reports_first_rejected ["+16175551212"] ["+0175551212"]
           "6175551212"); reflexivity.
Defined.
